(** * Test-plan generator: [testGenerator.ts]

    A shallow embedding of [packages/test-runner/src/testGenerator.ts]
    ([generateTests], [filterOnly], [computeWorkerRegistrationHash],
    [serializeConfiguration]) and the properties of the generated runs.

    Conventions of the embedding.
    - JavaScript strings are [string], a character outside ASCII being the
      bytes of its UTF-8 encoding; [`${i}`] of a loop counter is its decimal
      rendering ([pretty] on [nat]).
    - A thrown exception is the [Thrown] outcome; code between the throw and
      the enclosing [catch] (or the caller) is skipped.
    - The declaration tree is mutated in place by the source; here every
      operation returns the tree it leaves behind.
    - The collaborators imported from [./fixtures], the node [crypto] digest
      and the [RegExp] engine are variables of the section. *)

From Stdlib Require Import String Ascii List Arith Bool Lia.
From stdpp Require Import base option list strings gmap pretty.

Local Open Scope string_scope.
Local Open Scope list_scope.
Local Open Scope nat_scope.

(** ** Exceptions *)

Inductive Exception : Type :=
| SyntaxError   (* new RegExp on an invalid pattern *)
| TypeError.    (* property read on undefined *)

Inductive Outcome (A : Type) : Type :=
| Returned (a : A)
| Thrown (e : Exception).

Arguments Returned {A} a.
Arguments Thrown {A} e.

Definition outcome_bind {A B} (o : Outcome A) (k : A -> Outcome B) : Outcome B :=
  match o with
  | Returned a => k a
  | Thrown e => Thrown e
  end.

Definition outcome_map {A B} (f : A -> B) (o : Outcome A) : Outcome B :=
  outcome_bind o (fun a => Returned (f a)).

(** [try { x = o } catch (error) { }] with [x] preset to [dflt]. *)
Definition try_or {A} (dflt : A) (o : Outcome A) : A :=
  match o with
  | Returned a => a
  | Thrown _ => dflt
  end.

(** ** Registrations and the worker hash accumulator *)

Record Registration : Type := {
  scope : string;
  location : string
}.

(** [crypto.createHash('sha1')]: the accumulator is the text fed so far,
    [update] appends to it and [digest('hex')] applies the digest function. *)
Module Hash.
Definition t : Type := string.
Definition createHash : t := "".
Definition update (h : t) (data : string) : t := h +:+ data.
Definition digest (sha1_hex : string -> string) (h : t) : string := sha1_hex h.
End Hash.

Section Generator.

(** Fixture values ([any] in the source) and their template rendering
    [`${value}`]. *)
Variable Value : Type.
Variable renderValue : Value -> string.

(** Test callbacks ([test.fn]). *)
Variable Callback : Type.

(** The SHA-1 hex digest of node's [crypto]. *)
Variable sha1_hex : string -> string.

(** ** Configurations and runs *)

(** [Configuration]: an array of [{ name, value }]. *)
Definition Configuration : Type := list (string * Value).

(** [TestRun]: the fields lines 78-80 write.  The run is kept in the list of
    the declaration it was created for, which stands for its back
    reference. *)
Record TestRun : Type := {
  configuration : Configuration;
  _configurationString : string;
  _workerHash : string
}.

(** [serializeConfiguration]: one [name=value] token per pair, joined by
    [', ']. *)
Definition serializeConfiguration (configuration : Configuration) : string :=
  let tokens := map (fun '(name, value) => name +:+ "=" +:+ renderValue value) configuration in
  String.concat ", " tokens.

(** One pass of the body of [for (const name of fixtures)] (lines 57-67):
    [generatorConfigurations] before the pass, and after it. *)
Definition expandFixture (matrix : gmap string (list Value))
    (generatorConfigurations : list Configuration) (name : string) : list Configuration :=
  match matrix !! name with
  | None => generatorConfigurations
  | Some values =>
      let state :=
        if length generatorConfigurations =? 0 then [[]] else generatorConfigurations in
      flat_map (fun gen => map (fun value => gen ++ [(name, value)]) values) state
  end.

(** Lines 54-71: the loop over the fixtures, then the fallback to the empty
    configuration. *)
Definition generatorConfigurations (matrix : gmap string (list Value))
    (fixtures : list string) : list Configuration :=
  let generatorConfigurations := fold_left (expandFixture matrix) fixtures [] in
  if length generatorConfigurations =? 0 then [[]] else generatorConfigurations.

(** Lines 75-80: the run of [configuration] at repeat index [i]. *)
Definition newTestRun (registrationsHash : string) (configuration : Configuration)
    (i : nat) : TestRun :=
  let configurationString :=
    serializeConfiguration configuration +:+ "#repeat-" +:+ pretty i +:+ "#" in
  let workerHash := registrationsHash +:+ "@" +:+ configurationString in
  {| configuration := configuration;
     _configurationString := configurationString;
     _workerHash := workerHash |}.

(** Lines 73-83: the runs pushed for one test, in push order.
    [repeatEach] is a count (a non-negative integer), hence [nat]. *)
Definition materializeRuns (registrationsHash : string)
    (configurations : list Configuration) (repeatEach : nat) : list TestRun :=
  flat_map (fun configuration =>
              map (newTestRun registrationsHash configuration) (seq 0 repeatEach))
           configurations.

(** [computeWorkerRegistrationHash]: [registrations.get(fixture)] is
    [undefined] for an unregistered name and reading [.scope] of it throws. *)
Fixpoint feedWorkerLocations (registrations : gmap string Registration)
    (hash : Hash.t) (fixtures : list string) : Outcome Hash.t :=
  match fixtures with
  | [] => Returned hash
  | fixture :: rest =>
      match registrations !! fixture with
      | None => Thrown TypeError
      | Some registration =>
          if negb (String.eqb (scope registration) "worker")
          then feedWorkerLocations registrations hash rest
          else feedWorkerLocations registrations
                 (Hash.update hash (location registration)) rest
      end
  end.

Definition computeWorkerRegistrationHash (registrations : gmap string Registration)
    (fixtures : list string) : Outcome string :=
  outcome_map (Hash.digest sha1_hex)
    (feedWorkerLocations registrations Hash.createHash fixtures).

(** ** The grep pattern *)

(** What [(g|i|)] captured. *)
Inductive Flag : Type := NoFlag | FlagG | FlagI.

(** A [RegExp] object: its pattern, its two flags and the mutable
    [lastIndex]. *)
Record RegExp : Type := {
  source : string;
  global : bool;
  ignoreCase : bool;
  lastIndex : nat
}.

(** The engine behind [RegExp]: [regexpSyntax source] tells whether [source]
    is a well-formed pattern, and [regexpExec source ignoreCase s from] is
    the end index of the leftmost match of the pattern in [s] that starts at
    index [from] or later, if there is one. *)
Variable regexpSyntax : string -> bool.
Variable regexpExec : string -> bool -> string -> nat -> option nat.

(** [new RegExp(pattern, flags)], for the flags [(g|i|)] can capture;
    [undefined] flags are no flags.  An ill-formed pattern throws. *)
Definition RegExp_new (pattern : string) (flags : option Flag) : Outcome RegExp :=
  if regexpSyntax pattern
  then Returned {| source := pattern;
                   global := match flags with Some FlagG => true | _ => false end;
                   ignoreCase := match flags with Some FlagI => true | _ => false end;
                   lastIndex := 0 |}
  else Thrown SyntaxError.

(** [r.test(s)]: a global expression searches from [lastIndex] (past the end
    of [s] there is nothing to find) and moves it to the end of the match,
    or back to 0 when there is none; any other expression searches from 0
    and leaves [lastIndex] alone. *)
Definition RegExp_test (r : RegExp) (s : string) : bool * RegExp :=
  let setLastIndex (e : nat) : RegExp :=
    {| source := source r; global := global r;
       ignoreCase := ignoreCase r; lastIndex := e |} in
  let from := if global r then lastIndex r else 0 in
  if String.length s <? from
  then (false, setLastIndex 0)
  else match regexpExec (source r) (ignoreCase r) s from with
       | Some e => (true, if global r then setLastIndex e else r)
       | None => (false, if global r then setLastIndex 0 else r)
       end.

(** Line terminators, which [.] does not match: line feed (U+000A),
    carriage return (U+000D), line separator (U+2028) and paragraph
    separator (U+2029).  The first two are one byte; the last two are the
    three bytes E2 80 A8 and E2 80 A9 (226 128 168 and 226 128 169).
    [startsLineTerminator s]: a line terminator stands at the head of [s]. *)
Definition startsLineTerminator (s : list ascii) : bool :=
  match s with
  | [] => false
  | c :: rest =>
      Ascii.eqb c "010"%char || Ascii.eqb c "013"%char
      || (Ascii.eqb c "226"%char
          && match rest with
             | c1 :: c2 :: _ =>
                 Ascii.eqb c1 "128"%char
                 && (Ascii.eqb c2 "168"%char || Ascii.eqb c2 "169"%char)
             | _ => false
             end)
  end.

(** No line terminator stands anywhere in [s]. *)
Fixpoint lineTerminatorFree (s : list ascii) : bool :=
  match s with
  | [] => true
  | _ :: rest => negb (startsLineTerminator s) && lineTerminatorFree rest
  end.

(** What the second alternative (dot, star) matches at index 0: the longest
    prefix free of line terminators. *)
Fixpoint dotStar (s : list ascii) : list ascii :=
  match s with
  | [] => []
  | c :: rest => if startsLineTerminator s then [] else c :: dotStar rest
  end.

(** The first alternative of the pattern of line 27 (anchored at both ends:
    slash, greedy group 1, slash, group 2) against the whole input:
    a leading slash, then the body up to a later slash that is followed by
    [g], [i] or nothing up to the end of the input; the body holds no line
    terminator.  The input is read from its end to find the closing slash. *)
Definition matchDelimited (s : list ascii) : option (list ascii * Flag) :=
  match s with
  | "/"%char :: rest =>
      let candidate :=
        match rev rest with
        | "/"%char :: body => Some (rev body, NoFlag)
        | "g"%char :: "/"%char :: body => Some (rev body, FlagG)
        | "i"%char :: "/"%char :: body => Some (rev body, FlagI)
        | _ => None
        end in
      match candidate with
      | Some (body, flag) =>
          if lineTerminatorFree body
          then Some (body, flag) else None
      | None => None
      end
  | _ => None
  end.

(** [config.grep.match(...)] of line 27: the array [match[0], match[1],
    match[2]]; the groups are [undefined] when the second alternative (any
    run of characters other than line terminators) matched.  The match is
    never [null]. *)
Definition grepMatch (input : string) : string * option string * option Flag :=
  let s := list_ascii_of_string input in
  match matchDelimited s with
  | Some (body, flag) => (input, Some (string_of_list_ascii body), Some flag)
  | None => (string_of_list_ascii (dotStar s), None, None)
  end.

(** JavaScript truthiness of a string that may be [undefined]. *)
Definition truthy (s : option string) : bool :=
  match s with
  | Some s => negb (String.eqb s "")
  | None => false
  end.

(** The arguments line 28 hands to [new RegExp]: [match[1] || match[0]] and
    [match[2]]. *)
Definition grepArguments (input : string) : string * option Flag :=
  let '(match0, match1, match2) := grepMatch input in
  (if truthy match1 then default "" match1 else match0, match2).

Record RunnerConfig : Type := {
  grep : option string;
  repeatEach : nat
}.

(** Lines 25-29. *)
Definition parseGrep (config : RunnerConfig) : Outcome (option RegExp) :=
  if truthy (grep config)
  then let '(pattern, flags) := grepArguments (default "" (grep config)) in
       outcome_map Some (RegExp_new pattern flags)
  else Returned None.

(** ** The declaration tree *)

(** Of the classes of [./declarations], the fields this file reads or writes;
    [title] and [_only] are prefixed, as both classes have them.  A suite is
    read through [suites] and [tests], as [filterOnly] does ([_entries],
    which only [createSuiteRun] reads and nothing here writes, is left
    out). *)
Record TestDeclaration : Type := {
  test_title : string;
  fn : Callback;
  test_only : bool;
  runs : list TestRun
}.

#[warnings="-register-all"]
Inductive SuiteDeclaration : Type := Suite {
  suite_title : string;
  file : string;
  suite_only : bool;
  suites : list SuiteDeclaration;
  tests : list TestDeclaration
}.

(** The state of the [./fixtures] module once [rerunRegistrations(file)] has
    run: the [registrations] map, the [matrix] of generator fixtures and
    [fixturesForCallback], which may throw. *)
Record Fixtures : Type := {
  registrations : gmap string Registration;
  matrix : gmap string (list Value);
  fixturesForCallback : Callback -> Outcome (list string)
}.

Variable rerunRegistrations : string -> Fixtures.

(** Modelled from the spec: [test.fullTitle()] of [./declarations], which is
    not among the sources.  The fully-qualified title is made of the titles
    of the enclosing suites, outermost first, and the test's own title; the
    variable stands for the way they are joined. *)
Variable fullTitle : list string -> string.

(** ** Generation *)

(** Line 40: whether the test goes on ([true]) or is skipped by [continue],
    and the state [grep] is left in. *)
Definition grepAccepts (grep : option RegExp) (title : string) : bool * option RegExp :=
  match grep with
  | None => (true, None)
  | Some r => let (matched, r') := RegExp_test r title in (matched, Some r')
  end.

(** [test.runs.push(testRun)] of line 81, for each of [pushed] in turn. *)
Definition pushRuns (test : TestDeclaration) (pushed : list TestRun) : TestDeclaration :=
  {| test_title := test_title test; fn := fn test; test_only := test_only test;
     runs := runs test ++ pushed |}.

(** Lines 43-49: a resolution that throws leaves [fixtures] empty. *)
Definition resolveFixtures (env : Fixtures) (test : TestDeclaration) : list string :=
  try_or [] (fixturesForCallback env (fn test)).

(** Lines 43-83: the test once its runs are pushed. *)
Definition generateRuns (env : Fixtures) (config : RunnerConfig)
    (test : TestDeclaration) : Outcome TestDeclaration :=
  let fixtures := resolveFixtures env test in
  outcome_bind (computeWorkerRegistrationHash (registrations env) fixtures)
    (fun registrationsHash =>
       let configurations := generatorConfigurations (matrix env) fixtures in
       Returned (pushRuns test
                   (materializeRuns registrationsHash configurations
                      (repeatEach config)))).

(** The loop of line 39 threads the [grep] object and may throw. *)
Definition Gen (A : Type) : Type := option RegExp -> Outcome (A * option RegExp).

Definition gen_ret {A} (a : A) : Gen A := fun grep => Returned (a, grep).

Definition gen_bind {A B} (m : Gen A) (k : A -> Gen B) : Gen B :=
  fun grep => outcome_bind (m grep) (fun '(a, grep') => k a grep').

Definition gen_mapM {A B} (f : A -> Gen B) : list A -> Gen (list B) :=
  fix go (l : list A) : Gen (list B) :=
    match l with
    | [] => gen_ret []
    | a :: rest =>
        gen_bind (f a) (fun b => gen_bind (go rest) (fun bs => gen_ret (b :: bs)))
    end.

(** Lines 40-83, for the test found under the suites titled [path]. *)
Definition visitTest (env : Fixtures) (config : RunnerConfig) (path : list string)
    (test : TestDeclaration) : Gen TestDeclaration :=
  fun grep =>
    let (accepted, grep') := grepAccepts grep (fullTitle (path ++ [test_title test])) in
    if accepted
    then outcome_map (fun test' => (test', grep')) (generateRuns env config test)
    else Returned (test, grep').

(** Modelled from the spec: [suite._allTests()] of [./declarations], which is
    not among the sources, enumerates every test of the tree under [suite];
    here the tests of the nested suites come first, then the suite's own, each
    list in declaration order.  The walk returns the suite with the visited
    tests in place. *)
Fixpoint visitAllTests (env : Fixtures) (config : RunnerConfig) (path : list string)
    (suite : SuiteDeclaration) : Gen SuiteDeclaration :=
  match suite with
  | Suite title file only suites tests =>
      gen_bind (gen_mapM (visitAllTests env config (path ++ [title])) suites)
        (fun suites' =>
           gen_bind (gen_mapM (visitTest env config (path ++ [title])) tests)
             (fun tests' => gen_ret (Suite title file only suites' tests')))
  end.

(** [filterOnly]: the returned flag, and the suite as the call leaves it. *)
Fixpoint filterOnly (suite : SuiteDeclaration) : bool * SuiteDeclaration :=
  match suite with
  | Suite title file only suites tests =>
      let onlySuites :=
        omap (fun child =>
                let (kept, child') := filterOnly child in
                if kept || suite_only child then Some child' else None) suites in
      let onlyTests := filter (fun test => test_only test = true) tests in
      if negb (length onlySuites =? 0) || negb (length onlyTests =? 0)
      then (true, Suite title file only onlySuites onlyTests)
      else (false, suite)
  end.

(** [new SuiteDeclaration('')] with the suites added by [_addSuite]. *)
Definition rootSuite (suites : list SuiteDeclaration) : SuiteDeclaration :=
  Suite "" "" false suites [].

(** Lines 31-86: the suites once every test was visited.
    [suite._renumber()] only writes the ordinals, which nothing here reads. *)
Definition visitSuites (suites : list SuiteDeclaration) (config : RunnerConfig)
    : Gen (list SuiteDeclaration) :=
  gen_mapM (fun suite =>
              visitAllTests (rerunRegistrations (file suite)) config [] suite)
           suites.

(** [generateTests]. *)
Definition generateTests (suites : list SuiteDeclaration) (config : RunnerConfig)
    : Outcome SuiteDeclaration :=
  outcome_bind (parseGrep config) (fun grep =>
    outcome_bind (visitSuites suites config grep)
      (fun '(suites', _) => Returned (snd (filterOnly (rootSuite suites'))))).

(** ** Vocabulary of the properties *)

(** The domains of the generator fixtures among [fixtures], in list order. *)
Definition generatorDomains (matrix : gmap string (list Value))
    (fixtures : list string) : list (list Value) :=
  omap (fun name => matrix !! name) fixtures.

(** The product [d1 * d2 * ... * dk] of the sizes of these domains. *)
Definition domainProduct (matrix : gmap string (list Value))
    (fixtures : list string) : nat :=
  foldr Nat.mul 1 (map length (generatorDomains matrix fixtures)).

(** Every fixture name has a registration. *)
Definition allRegistered (registrations : gmap string Registration)
    (fixtures : list string) : Prop :=
  Forall (fun fixture => is_Some (registrations !! fixture)) fixtures.

(** The locations of the worker-scoped registrations of [fixtures], in list
    order. *)
Definition workerLocations (registrations : gmap string Registration)
    (fixtures : list string) : list string :=
  omap (fun fixture =>
          match registrations !! fixture with
          | Some registration =>
              if String.eqb (scope registration) "worker"
              then Some (location registration) else None
          | None => None
          end) fixtures.

(** The pairs of a configuration as [name=value], joined by [', ']. *)
Fixpoint joinedPairs (configuration : Configuration) : string :=
  match configuration with
  | [] => ""
  | (name, value) :: rest =>
      match rest with
      | [] => name +:+ "=" +:+ renderValue value
      | _ => name +:+ "=" +:+ renderValue value +:+ ", " +:+ joinedPairs rest
      end
  end.

(** The run's configuration string is that of its configuration at repeat
    index [i]. *)
Definition hasRepeatIndex (run : TestRun) (i : nat) : Prop :=
  _configurationString run
  = joinedPairs (configuration run) +:+ "#repeat-" +:+ pretty i +:+ "#".

(** A title matches a pattern when the pattern occurs in it somewhere. *)
Definition titleMatches (r : RegExp) (title : string) : Prop :=
  is_Some (regexpExec (source r) (ignoreCase r) title 0).

(** The text of a flag, as it stands after the closing slash. *)
Definition flagText (flag : Flag) : string :=
  match flag with
  | NoFlag => ""
  | FlagG => "g"
  | FlagI => "i"
  end.

(** [s] holds no line terminator. *)
Definition noLineTerminator (s : string) : Prop :=
  lineTerminatorFree (list_ascii_of_string s) = true.

(** Every test of the tree. *)
Fixpoint allTests (suite : SuiteDeclaration) : list TestDeclaration :=
  match suite with
  | Suite _ _ _ suites tests => flat_map allTests suites ++ tests
  end.

(** Every suite below the root [suite], at any depth. *)
Fixpoint nestedSuites (suite : SuiteDeclaration) : list SuiteDeclaration :=
  match suite with
  | Suite _ _ _ suites _ => flat_map (fun child => child :: nestedSuites child) suites
  end.

(** The tests of the tree that are marked exclusive. *)
Definition exclusiveTests (suite : SuiteDeclaration) : list TestDeclaration :=
  filter (fun test => test_only test = true) (allTests suite).

(** No test of the tree and no suite below its root is marked exclusive. *)
Definition noExclusive (suite : SuiteDeclaration) : Prop :=
  exclusiveTests suite = [] /\
  Forall (fun child => suite_only child = false) (nestedSuites suite).

(** Every exclusive suite below the root holds an exclusive test. *)
Definition exclusiveSuitesHoldExclusiveTest (suite : SuiteDeclaration) : Prop :=
  Forall (fun child => suite_only child = true -> exclusiveTests child <> [])
         (nestedSuites suite).

(** [OnlyPath test suite chain]: [chain] is what is left of [suite] when
    nothing is kept but [test] and the suites it is nested in. *)
Inductive OnlyPath (test : TestDeclaration) : SuiteDeclaration -> SuiteDeclaration -> Prop :=
| OnlyPath_here title file only suites tests :
    test ∈ tests ->
    OnlyPath test (Suite title file only suites tests) (Suite title file only [] [test])
| OnlyPath_below title file only suites tests child chain :
    child ∈ suites ->
    OnlyPath test child chain ->
    OnlyPath test (Suite title file only suites tests) (Suite title file only [chain] []).

(** The decision [filterOnly] takes on a nested suite. *)
Definition keepExclusive (child : SuiteDeclaration) : option SuiteDeclaration :=
  let (kept, child') := filterOnly child in
  if kept || suite_only child then Some child' else None.

(** The run of the empty configuration at repeat index [i], under the hash
    of no fixture. *)
Definition bareRun (i : nat) : TestRun :=
  {| configuration := [];
     _configurationString := "#repeat-" +:+ pretty i +:+ "#";
     _workerHash := sha1_hex "" +:+ "@" +:+ "#repeat-" +:+ pretty i +:+ "#" |}.

(** A declaration without what its run list holds. *)
Definition eraseTestRuns (test : TestDeclaration) : TestDeclaration :=
  {| test_title := test_title test; fn := fn test; test_only := test_only test;
     runs := [] |}.

Fixpoint eraseRuns (suite : SuiteDeclaration) : SuiteDeclaration :=
  match suite with
  | Suite title file only suites tests =>
      Suite title file only (map eraseRuns suites) (map eraseTestRuns tests)
  end.

(** ** Vocabulary of further properties *)

(** The combinations of the values of the generator fixtures among
    [fixtures]: one pair per generator fixture, in list order, the value of
    an earlier fixture changing slowest. *)
Fixpoint combinations (matrix : gmap string (list Value)) (fixtures : list string)
    : list Configuration :=
  match fixtures with
  | [] => [[]]
  | name :: rest =>
      match matrix !! name with
      | None => combinations matrix rest
      | Some values =>
          flat_map (fun value => map (cons (name, value)) (combinations matrix rest))
                   values
      end
  end.

(** The tests of the tree under the suites titled [path], in the order of
    the walk, each with its full title. *)
Fixpoint titledTests (path : list string) (suite : SuiteDeclaration)
    : list (string * TestDeclaration) :=
  match suite with
  | Suite title _ _ suites tests =>
      flat_map (titledTests (path ++ [title])) suites
      ++ map (fun test => (fullTitle ((path ++ [title]) ++ [test_title test]), test)) tests
  end.

(** The pattern, if there is one, occurs in the title. *)
Definition patternAdmits (grep : option RegExp) (title : string) : Prop :=
  match grep with
  | None => True
  | Some r => titleMatches r title
  end.

(** There is no pattern, or one without the [g] flag. *)
Definition notGlobal (grep : option RegExp) : Prop :=
  match grep with
  | None => True
  | Some r => global r = false
  end.

End Generator.

Arguments configuration {Value} t.
Arguments _configurationString {Value} t.
Arguments _workerHash {Value} t.
Arguments Build_TestRun {Value}.
Arguments test_title {Value Callback} t.
Arguments fn {Value Callback} t.
Arguments test_only {Value Callback} t.
Arguments runs {Value Callback} t.
Arguments Build_TestDeclaration {Value Callback}.
Arguments Suite {Value Callback} suite_title file suite_only suites tests.
Arguments suite_title {Value Callback} s.
Arguments file {Value Callback} s.
Arguments suite_only {Value Callback} s.
Arguments suites {Value Callback} s.
Arguments tests {Value Callback} s.
Arguments registrations {Value Callback} f.
Arguments matrix {Value Callback} f.
Arguments fixturesForCallback {Value Callback} f.
Arguments serializeConfiguration {Value}.
Arguments expandFixture {Value}.
Arguments generatorConfigurations {Value}.
Arguments newTestRun {Value}.
Arguments materializeRuns {Value}.
Arguments resolveFixtures {Value Callback}.
Arguments pushRuns {Value Callback}.
Arguments joinedPairs {Value}.
Arguments hasRepeatIndex {Value}.
Arguments generateRuns {Value} _ {Callback}.
Arguments visitTest {Value} _ {Callback}.
Arguments visitAllTests {Value} _ {Callback}.
Arguments visitSuites {Value} _ {Callback}.
Arguments generateTests {Value} _ {Callback}.
Arguments filterOnly {Value Callback}.
Arguments rootSuite {Value Callback}.
Arguments generatorDomains {Value}.
Arguments domainProduct {Value}.
Arguments allTests {Value Callback}.
Arguments nestedSuites {Value Callback}.
Arguments exclusiveTests {Value Callback}.
Arguments noExclusive {Value Callback}.
Arguments exclusiveSuitesHoldExclusiveTest {Value Callback}.
Arguments OnlyPath {Value Callback}.
Arguments OnlyPath_here {Value Callback}.
Arguments OnlyPath_below {Value Callback}.
Arguments eraseTestRuns {Value Callback}.
Arguments eraseRuns {Value Callback}.
Arguments keepExclusive {Value Callback}.
Arguments bareRun {Value}.
Arguments combinations {Value}.
Arguments titledTests {Value Callback}.

(** ** The execution tree: [createSuiteRun] and [createTestRun]

    [createSuiteRun] reads a suite declaration through [_entries] and the
    fields it copies, and a test declaration through the fields
    [createTestRun] copies; it builds objects of the classes [Suite] and
    [Test] of [./test].  Each class is a record of its own module here. *)

(** Modelled from the spec: a test declaration of [./declarations], which is
    not among the sources, with the fields [createTestRun] reads.  [ref]
    stands for the object itself, which is what [tests.has(test)] looks
    up. *)
Module DeclaredTest.
Record t (Callback : Type) : Type := {
  ref : nat;
  title : string;
  fn : Callback;
  location : string;
  file : string;
  _ordinal : nat;
  _only : bool;
  _skipped : bool
}.
Arguments ref {Callback} t.
Arguments title {Callback} t.
Arguments fn {Callback} t.
Arguments location {Callback} t.
Arguments file {Callback} t.
Arguments _ordinal {Callback} t.
Arguments _only {Callback} t.
Arguments _skipped {Callback} t.
End DeclaredTest.

(** Modelled from the spec: a [Test] of [./test], which is not among the
    sources, with the arguments of its constructor and the fields
    [createTestRun] writes. *)
Module CreatedTest.
Record t (Callback : Type) : Type := {
  title : string;
  fn : Callback;
  location : string;
  file : string;
  _ordinal : nat;
  _only : bool;
  _skipped : bool
}.
Arguments title {Callback} t.
Arguments fn {Callback} t.
Arguments location {Callback} t.
Arguments file {Callback} t.
Arguments _ordinal {Callback} t.
Arguments _only {Callback} t.
Arguments _skipped {Callback} t.
End CreatedTest.

(** Modelled from the spec: a suite declaration of [./declarations] as
    [createSuiteRun] reads it; an entry of [_entries] is a suite declaration
    or a test declaration. *)
Module DeclaredSuite.
#[warnings="-register-all"]
Inductive t (Callback : Type) : Type := Build {
  title : string;
  location : string;
  file : string;
  _ordinal : nat;
  _only : bool;
  _skipped : bool;
  _entries : list (t Callback + DeclaredTest.t Callback)
}.
Arguments Build {Callback}.
Arguments title {Callback} t.
Arguments location {Callback} t.
Arguments file {Callback} t.
Arguments _ordinal {Callback} t.
Arguments _only {Callback} t.
Arguments _skipped {Callback} t.
Arguments _entries {Callback} t.
End DeclaredSuite.

(** Modelled from the spec: a [Suite] of [./test], which is not among the
    sources, with the title given to its constructor, the fields
    [createSuiteRun] writes, and in [added] what [_addSuite] and [_addTest]
    were given, in the order of the calls.  The parent handed to the
    constructor is the suite the new one is added to. *)
Module CreatedSuite.
#[warnings="-register-all"]
Inductive t (Callback : Type) : Type := Build {
  title : string;
  location : string;
  file : string;
  _ordinal : nat;
  _only : bool;
  _skipped : bool;
  added : list (t Callback + CreatedTest.t Callback)
}.
Arguments Build {Callback}.
Arguments title {Callback} t.
Arguments location {Callback} t.
Arguments file {Callback} t.
Arguments _ordinal {Callback} t.
Arguments _only {Callback} t.
Arguments _skipped {Callback} t.
Arguments added {Callback} t.
End CreatedSuite.

Section Execution.

Variable Callback : Type.
Variable regexpExec : string -> bool -> string -> nat -> option nat.

(** Modelled from the spec: [test.fullTitle()], as in the generation. *)
Variable fullTitle : list string -> string.

(** [createTestRun]. *)
Definition createTestRun (test : DeclaredTest.t Callback) : CreatedTest.t Callback :=
  {| CreatedTest.title := DeclaredTest.title test;
     CreatedTest.fn := DeclaredTest.fn test;
     CreatedTest.location := DeclaredTest.location test;
     CreatedTest.file := DeclaredTest.file test;
     CreatedTest._ordinal := DeclaredTest._ordinal test;
     CreatedTest._only := DeclaredTest._only test;
     CreatedTest._skipped := DeclaredTest._skipped test |}.

(** [createSuiteRun] threads the [grep] object; nothing in it throws. *)
Definition Scan (A : Type) : Type := option RegExp -> A * option RegExp.

(** The loop of lines 104-116: [body] tells, for an entry, what is added to
    the result, if anything. *)
Definition scanEntries {A B} (body : A -> Scan (option B)) : list A -> Scan (list B) :=
  fix go (entries : list A) : Scan (list B) :=
    fun grep =>
      match entries with
      | [] => ([], grep)
      | entry :: rest =>
          let (addition, grep1) := body entry grep in
          let (additions, grep2) := go rest grep1 in
          (match addition with
           | Some b => b :: additions
           | None => additions
           end, grep2)
      end.

(** Lines 108-114, for a test entry of a suite whose tests have the titles
    [path] before their own. *)
Definition createTestEntry (tests : gset nat) (path : list string)
    (test : DeclaredTest.t Callback) : Scan (option (CreatedTest.t Callback)) :=
  fun grep =>
    if negb (bool_decide (DeclaredTest.ref test ∈ tests)) then (None, grep)
    else
      let (accepted, grep1) :=
        grepAccepts regexpExec grep (fullTitle (path ++ [DeclaredTest.title test])) in
      if accepted then (Some (createTestRun test), grep1) else (None, grep1).

(** [createSuiteRun], for a suite under the suites titled [path]. *)
Fixpoint createSuiteRun (tests : gset nat) (path : list string)
    (suite : DeclaredSuite.t Callback) : Scan (CreatedSuite.t Callback) :=
  match suite with
  | DeclaredSuite.Build title location file ordinal only skipped entries =>
      fun grep =>
        let (added, grep') :=
          scanEntries
            (fun entry grep =>
               match entry with
               | inl child =>
                   let (created, grep1) :=
                     createSuiteRun tests (path ++ [title]) child grep in
                   (Some (inl created), grep1)
               | inr test =>
                   let (created, grep1) :=
                     createTestEntry tests (path ++ [title]) test grep in
                   (option_map inr created, grep1)
               end)
            entries grep in
        (CreatedSuite.Build title location file ordinal only skipped added, grep')
  end.

(** The body of the loop of lines 104-116, as [createSuiteRun] has it. *)
Definition entryBody (tests : gset nat) (path : list string)
    (entry : DeclaredSuite.t Callback + DeclaredTest.t Callback)
    : Scan (option (CreatedSuite.t Callback + CreatedTest.t Callback)) :=
  fun grep =>
    match entry with
    | inl child =>
        let (created, grep1) := createSuiteRun tests path child grep in
        (Some (inl created), grep1)
    | inr test =>
        let (created, grep1) := createTestEntry tests path test grep in
        (option_map inr created, grep1)
    end.

(** *** Vocabulary *)

(** The test declarations under a suite, in the order of the entries, each
    with its full title. *)
Fixpoint declaredTests (path : list string) (suite : DeclaredSuite.t Callback)
    : list (string * DeclaredTest.t Callback) :=
  match suite with
  | DeclaredSuite.Build title _ _ _ _ _ entries =>
      flat_map (fun entry =>
                  match entry with
                  | inl child => declaredTests (path ++ [title]) child
                  | inr test =>
                      [(fullTitle ((path ++ [title]) ++ [DeclaredTest.title test]), test)]
                  end) entries
  end.

(** The tests of a created suite, in the order they were added. *)
Fixpoint createdTests (suite : CreatedSuite.t Callback) : list (CreatedTest.t Callback) :=
  match suite with
  | CreatedSuite.Build _ _ _ _ _ _ added =>
      flat_map (fun entry =>
                  match entry with
                  | inl child => createdTests child
                  | inr test => [test]
                  end) added
  end.

(** A suite declaration as a created suite, without any test. *)
Fixpoint bareSuite (suite : DeclaredSuite.t Callback) : CreatedSuite.t Callback :=
  match suite with
  | DeclaredSuite.Build title location file ordinal only skipped entries =>
      CreatedSuite.Build title location file ordinal only skipped
        (omap (fun entry =>
                 match entry with
                 | inl child => Some (inl (bareSuite child))
                 | inr _ => None
                 end) entries)
  end.

(** A created suite without its tests. *)
Fixpoint withoutTests (suite : CreatedSuite.t Callback) : CreatedSuite.t Callback :=
  match suite with
  | CreatedSuite.Build title location file ordinal only skipped added =>
      CreatedSuite.Build title location file ordinal only skipped
        (omap (fun entry =>
                 match entry with
                 | inl child => Some (inl (withoutTests child))
                 | inr _ => None
                 end) added)
  end.

(** The pattern, if there is one, occurs in the title. *)
Definition admits (grep : option RegExp) (title : string) : bool :=
  match grep with
  | None => true
  | Some r => bool_decide (is_Some (regexpExec (source r) (ignoreCase r) title 0))
  end.

(** The test is in the set and its title has the pattern. *)
Definition selected (tests : gset nat) (grep : option RegExp)
    (entry : string * DeclaredTest.t Callback) : bool :=
  bool_decide (DeclaredTest.ref (snd entry) ∈ tests) && admits grep (fst entry).

End Execution.

Arguments createTestRun {Callback}.
Arguments scanEntries {A B}.
Arguments createTestEntry {Callback}.
Arguments createSuiteRun {Callback}.
Arguments entryBody {Callback}.
Arguments declaredTests {Callback}.
Arguments createdTests {Callback}.
Arguments bareSuite {Callback}.
Arguments withoutTests {Callback}.
Arguments selected {Callback}.

(** ** A concrete instance, to run the generator

    Values are strings rendered as themselves, a callback is its parameter
    list, the digest is a stand-in for SHA-1 that brackets what it was fed,
    and the [RegExp] engine knows literal patterns only (letters, digits and
    spaces), on which JavaScript's search is a substring search. *)
Module Demo.

Definition Value : Type := string.
Definition renderValue (v : Value) : string := v.
Definition Callback : Type := list string.
Definition digest (fed : string) : string := "<" +:+ fed +:+ ">".

Definition isLiteral (c : ascii) : bool :=
  let n := nat_of_ascii c in
  (n =? 32) || ((48 <=? n) && (n <=? 57)) || ((65 <=? n) && (n <=? 90))
  || ((97 <=? n) && (n <=? 122)).

(** Literal patterns are taken; any other is refused, as JavaScript refuses
    the unbalanced parenthesis used below. *)
Definition regexpSyntax (pattern : string) : bool :=
  forallb isLiteral (list_ascii_of_string pattern).

Definition lower (c : ascii) : ascii :=
  let n := nat_of_ascii c in
  if (65 <=? n) && (n <=? 90) then ascii_of_nat (n + 32) else c.

Definition sameChar (ignoreCase : bool) (a b : ascii) : bool :=
  if ignoreCase then Ascii.eqb (lower a) (lower b) else Ascii.eqb a b.

Fixpoint startsWith (ignoreCase : bool) (pattern s : list ascii) : bool :=
  match pattern, s with
  | [], _ => true
  | p :: pattern', c :: s' => sameChar ignoreCase p c && startsWith ignoreCase pattern' s'
  | _ :: _, [] => false
  end.

(** The end of the first occurrence of [pattern] in [s], [s] starting at
    index [at_]. *)
Fixpoint searchFrom (ignoreCase : bool) (pattern s : list ascii) (at_ : nat) : option nat :=
  if startsWith ignoreCase pattern s then Some (at_ + length pattern)
  else match s with
       | [] => None
       | _ :: s' => searchFrom ignoreCase pattern s' (S at_)
       end.

Definition regexpExec (pattern : string) (ignoreCase : bool) (s : string) (from : nat)
    : option nat :=
  searchFrom ignoreCase (list_ascii_of_string pattern)
    (drop from (list_ascii_of_string s)) from.

(** Titles joined by single spaces. *)
Definition fullTitle (titles : list string) : string := String.concat " " titles.

Definition workerFixture (location : string) : Registration :=
  {| scope := "worker"; location := location |}.
Definition testFixture (location : string) : Registration :=
  {| scope := "test"; location := location |}.

(** One file for every suite: [browser] is a generator fixture, [page] a
    worker fixture, [empty] a generator fixture without values; a callback
    that names [broken] cannot be resolved. *)
Definition fixturesEnv : Fixtures Value Callback :=
  {| registrations :=
       <["browser" := testFixture "fixtures.ts:1"]>
       (<["page" := workerFixture "L"]>
       (<["empty" := testFixture "fixtures.ts:3"]> ∅));
     matrix :=
       <["browser" := ["chromium"; "firefox"]]> (<["empty" := []]> ∅);
     fixturesForCallback := fun fn =>
       if bool_decide ("broken" ∈ fn) then Thrown TypeError else Returned fn |}.

Definition rerunRegistrations (file : string) : Fixtures Value Callback := fixturesEnv.

Definition test (title : string) (fn : Callback) (only : bool)
    : TestDeclaration Value Callback :=
  {| test_title := title; fn := fn; test_only := only; runs := [] |}.

Definition generate :=
  generateTests renderValue digest regexpSyntax regexpExec rerunRegistrations fullTitle.

Definition visit :=
  visitTest renderValue digest regexpExec fullTitle fixturesEnv.

Definition repeated (n : nat) : RunnerConfig := {| grep := None; repeatEach := n |}.

Definition browserTest : TestDeclaration Value Callback := test "t" ["browser"; "page"] false.
Definition emptyDomainTest : TestDeclaration Value Callback := test "t" ["empty"] false.
Definition brokenTest : TestDeclaration Value Callback := test "t" ["broken"] false.

(** Suite [A] is exclusive and holds no exclusive test; the one exclusive
    test, [y], is in suite [B]. *)
Definition exclusiveSuiteTree : SuiteDeclaration Value Callback :=
  rootSuite
    [Suite "A" "a.spec.ts" true [] [test "x" [] false];
     Suite "B" "b.spec.ts" false [] [test "y" [] true]].

(** The one exclusive test, [t], is in the exclusive suite [B] of suite [A]. *)
Definition nestedTree : SuiteDeclaration Value Callback :=
  rootSuite
    [Suite "A" "a.spec.ts" false
       [Suite "B" "a.spec.ts" true [] [test "t" [] true; test "u" [] false]]
       [test "v" [] false];
     Suite "C" "c.spec.ts" false [] [test "w" [] false]].

Definition plainTree : SuiteDeclaration Value Callback :=
  rootSuite [Suite "A" "a.spec.ts" false [] [test "t" [] false]].

(** Two tests whose titles both hold [foo]. *)
Definition fooSuite : SuiteDeclaration Value Callback :=
  Suite "A" "a.spec.ts" false [] [test "foo 1" [] false; test "foo 2" [] false].

Definition grepFooGlobal : RunnerConfig := {| grep := Some "/foo/g"; repeatEach := 1 |}.

(** [/foo/g] as created, and after a match that ended at index 5. *)
Definition fooAtStart : RegExp :=
  {| source := "foo"; global := true; ignoreCase := false; lastIndex := 0 |}.
Definition fooAfterMatch : RegExp :=
  {| source := "foo"; global := true; ignoreCase := false; lastIndex := 5 |}.

(** The same suite after an earlier pass left a run in the first list. *)
Definition fooSuiteWithRuns : SuiteDeclaration Value Callback :=
  Suite "A" "a.spec.ts" false []
    [pushRuns (test "foo 1" [] false) [bareRun digest 7]; test "foo 2" [] false].

(** What [generateTests] returns for [fooSuite] under [/foo/g]. *)
Definition fooGlobalResult : SuiteDeclaration Value Callback :=
  rootSuite
    [Suite "A" "a.spec.ts" false []
       [pushRuns (test "foo 1" [] false) [bareRun digest 0]; test "foo 2" [] false]].

(** [/foo/], without a flag. *)
Definition fooPlain : RegExp :=
  {| source := "foo"; global := false; ignoreCase := false; lastIndex := 0 |}.

(** What the walk leaves of [fooSuite] under [/foo/]. *)
Definition fooPlainResult : SuiteDeclaration Value Callback :=
  Suite "A" "a.spec.ts" false []
    [pushRuns (test "foo 1" [] false) [bareRun digest 0];
     pushRuns (test "foo 2" [] false) [bareRun digest 0]].

(** Two worker fixtures whose locations, [ab] then [c], make the text [abc],
    and two others that make it from [a] and [bc]. *)
Definition splitRegistrations : gmap string Registration :=
  <["first" := workerFixture "ab"]> (<["second" := workerFixture "c"]>
  (<["third" := workerFixture "a"]> (<["fourth" := workerFixture "bc"]> ∅))).

Definition declaredTest (ref : nat) (title : string) : DeclaredTest.t Callback :=
  {| DeclaredTest.ref := ref; DeclaredTest.title := title; DeclaredTest.fn := [];
     DeclaredTest.location := "a.spec.ts:1"; DeclaredTest.file := "a.spec.ts";
     DeclaredTest._ordinal := ref; DeclaredTest._only := false;
     DeclaredTest._skipped := false |}.

Definition declaredSuite (title : string)
    (entries : list (DeclaredSuite.t Callback + DeclaredTest.t Callback))
    : DeclaredSuite.t Callback :=
  DeclaredSuite.Build title "a.spec.ts:1" "a.spec.ts" 0 false false entries.

(** A test, a suite with a test and a suite without any, and a test. *)
Definition declaredTree : DeclaredSuite.t Callback :=
  declaredSuite ""
    [inr (declaredTest 1 "bar");
     inl (declaredSuite "S" [inr (declaredTest 2 "foo b"); inl (declaredSuite "E" [])]);
     inr (declaredTest 3 "foo c")].

Definition createRun := createSuiteRun (Callback := Callback) regexpExec fullTitle.

End Demo.

(** * Properties *)

(** ** Strings *)

Lemma append_assoc (a b c : string) : (a +:+ b) +:+ c = a +:+ (b +:+ c).
Proof.
  induction a as [|x a IH]; [reflexivity|].
  change (String x ((a +:+ b) +:+ c) = String x (a +:+ (b +:+ c))). by rewrite IH.
Qed.

Lemma list_ascii_of_append (a b : string) :
  list_ascii_of_string (a +:+ b) = list_ascii_of_string a ++ list_ascii_of_string b.
Proof.
  induction a as [|x a IH]; [reflexivity|].
  change (x :: list_ascii_of_string (a +:+ b)
          = x :: list_ascii_of_string a ++ list_ascii_of_string b).
  by rewrite IH.
Qed.

Lemma list_ascii_of_string_inj (a b : string) :
  list_ascii_of_string a = list_ascii_of_string b -> a = b.
Proof.
  intros H. rewrite <- (string_of_list_ascii_of_string a),
    <- (string_of_list_ascii_of_string b). by rewrite H.
Qed.

Lemma append_inj_r (a b c : string) : a +:+ c = b +:+ c -> a = b.
Proof.
  intros H. apply list_ascii_of_string_inj.
  apply (f_equal list_ascii_of_string) in H.
  rewrite !list_ascii_of_append in H. by apply app_inv_tail in H.
Qed.

(** ** The configuration matrix *)

Section Expansion.
Context {Value : Type}.
Implicit Types (matrix : gmap string (list Value)) (fixtures : list string).
Implicit Types (gens : list (Configuration Value)).

Lemma expandFixture_length matrix gens name values :
  matrix !! name = Some values ->
  length (expandFixture matrix gens name) = Nat.max 1 (length gens) * length values.
Proof.
  intros Hm. unfold expandFixture. rewrite Hm.
  erewrite flat_map_constant_length.
  2:{ intros gen _. by rewrite length_map. }
  f_equal. destruct gens; reflexivity.
Qed.

Lemma expandFixture_not_generator matrix gens name :
  matrix !! name = None -> expandFixture matrix gens name = gens.
Proof. intros Hm. unfold expandFixture. by rewrite Hm. Qed.

Lemma expandFixture_empty_domain matrix gens name :
  matrix !! name = Some [] -> expandFixture matrix gens name = [].
Proof.
  intros Hm. unfold expandFixture. rewrite Hm.
  generalize (if length gens =? 0 then [[]] else gens). intros state.
  induction state as [|gen state IH]; [reflexivity|]. exact IH.
Qed.

(** With partial configurations at hand, every further non-empty domain
    multiplies their number. *)
Lemma expansion_length_from matrix fixtures gens :
  Forall (fun domain => domain <> []) (generatorDomains matrix fixtures) ->
  gens <> [] ->
  length (fold_left (expandFixture matrix) fixtures gens)
  = length gens * domainProduct matrix fixtures.
Proof.
  unfold domainProduct, generatorDomains.
  revert gens. induction fixtures as [|name fixtures IH]; intros gens Hne Hgens.
  - cbn. lia.
  - cbn [fold_left omap list_omap] in *.
    destruct (matrix !! name) as [values|] eqn:Hm.
    + apply Forall_cons in Hne as [Hvalues Hne].
      rewrite IH; [|done|].
      * rewrite (expandFixture_length _ _ _ _ Hm). cbn.
        destruct gens; [done|]. cbn [length]. lia.
      * intros Hnil. apply (f_equal length) in Hnil.
        rewrite (expandFixture_length _ _ _ _ Hm) in Hnil.
        destruct values; [done|]. destruct gens; [done|]. cbn in Hnil. lia.
    + rewrite expandFixture_not_generator by done. by apply IH.
Qed.

(** The loop of lines 57-67 from the empty array: nothing without a
    generator fixture, the product of the sizes otherwise. *)
Lemma expansion_length matrix fixtures :
  Forall (fun domain => domain <> []) (generatorDomains matrix fixtures) ->
  length (fold_left (expandFixture matrix) fixtures [])
  = if decide (generatorDomains matrix fixtures = []) then 0
    else domainProduct matrix fixtures.
Proof.
  induction fixtures as [|name fixtures IH]; intros Hne.
  - reflexivity.
  - unfold domainProduct, generatorDomains in *.
    cbn [fold_left omap list_omap] in *.
    destruct (matrix !! name) as [values|] eqn:Hm.
    + apply Forall_cons in Hne as [Hvalues Hne].
      rewrite decide_False by done.
      assert (length (expandFixture matrix [] name) = length values) as Hlen.
      { rewrite (expandFixture_length _ _ _ _ Hm). cbn. lia. }
      rewrite (expansion_length_from matrix fixtures); [|done|].
      * unfold domainProduct, generatorDomains. rewrite Hlen. reflexivity.
      * intros Hnil. rewrite Hnil in Hlen. by destruct values.
    + rewrite expandFixture_not_generator by done. by apply IH.
Qed.

Lemma domainProduct_positive matrix fixtures :
  Forall (fun domain => domain <> []) (generatorDomains matrix fixtures) ->
  1 <= domainProduct matrix fixtures.
Proof.
  unfold domainProduct. induction 1 as [|domain domains Hdomain _ IH]; cbn; [lia|].
  destruct domain; [done|]. cbn. lia.
Qed.

Lemma generatorConfigurations_length matrix fixtures :
  Forall (fun domain => domain <> []) (generatorDomains matrix fixtures) ->
  length (generatorConfigurations matrix fixtures) = domainProduct matrix fixtures.
Proof.
  intros Hne. unfold generatorConfigurations.
  pose proof (expansion_length matrix fixtures Hne) as Hlen.
  destruct (fold_left (expandFixture matrix) fixtures []) as [|gen gens] eqn:Hfold.
  - cbn. case_decide as Hdom; cbn in Hlen.
    + unfold domainProduct. by rewrite Hdom.
    + pose proof (domainProduct_positive matrix fixtures Hne). lia.
  - cbn [length Nat.eqb]. case_decide as Hdom; [done|]. exact Hlen.
Qed.

Lemma generatorConfigurations_nonempty matrix fixtures :
  1 <= length (generatorConfigurations matrix fixtures).
Proof.
  unfold generatorConfigurations.
  destruct (fold_left (expandFixture matrix) fixtures []); cbn; lia.
Qed.

Lemma generatorConfigurations_restart matrix before name after :
  matrix !! name = Some [] ->
  fold_left (expandFixture matrix) (before ++ [name]) [] = [] /\
  generatorConfigurations matrix (before ++ name :: after)
  = generatorConfigurations matrix after.
Proof.
  intros Hm. split.
  - rewrite fold_left_app. cbn. by apply expandFixture_empty_domain.
  - unfold generatorConfigurations. rewrite fold_left_app. cbn [fold_left].
    by rewrite (expandFixture_empty_domain _ _ _ Hm).
Qed.

Lemma materializeRuns_length renderValue hash (configurations : list (Configuration Value)) n :
  length (materializeRuns renderValue hash configurations n) = length configurations * n.
Proof.
  unfold materializeRuns. apply flat_map_constant_length.
  intros configuration _. by rewrite length_map, length_seq.
Qed.

End Expansion.

(** ** One test of the generation loop *)

Section Generation.
Context {Value : Type} (renderValue : Value -> string) {Callback : Type}.
Context (sha1_hex : string -> string).
Context (regexpSyntax : string -> bool).
Context (regexpExec : string -> bool -> string -> nat -> option nat).
Context (rerunRegistrations : string -> Fixtures Value Callback).
Context (fullTitle : list string -> string).

Implicit Types (env : Fixtures Value Callback) (config : RunnerConfig).
Implicit Types (test : TestDeclaration Value Callback) (grep : option RegExp).
Implicit Types (registrations : gmap string Registration).

Local Abbreviation visit := (visitTest renderValue sha1_hex regexpExec fullTitle).
Local Abbreviation accepts := (grepAccepts regexpExec).
Local Abbreviation hashOf := (computeWorkerRegistrationHash sha1_hex).

Lemma feedWorkerLocations_registered registrations hash fixtures :
  allRegistered registrations fixtures ->
  feedWorkerLocations registrations hash fixtures
  = Returned (fold_left Hash.update (workerLocations registrations fixtures) hash).
Proof.
  unfold allRegistered, workerLocations. intros Hreg. revert hash.
  induction Hreg as [|fixture fixtures [registration Hfixture] _ IH]; intros hash.
  - reflexivity.
  - cbn [feedWorkerLocations omap list_omap]. rewrite Hfixture.
    destruct (String.eqb (scope registration) "worker"); cbn; apply IH.
Qed.

Lemma feedWorkerLocations_unregistered registrations hash fixtures :
  ~ allRegistered registrations fixtures ->
  feedWorkerLocations registrations hash fixtures = Thrown TypeError.
Proof.
  unfold allRegistered. revert hash.
  induction fixtures as [|fixture fixtures IH]; intros hash Hreg.
  - destruct Hreg. constructor.
  - cbn [feedWorkerLocations].
    destruct (registrations !! fixture) as [registration|] eqn:Hfixture; [|done].
    assert (~ Forall (fun fixture => is_Some (registrations !! fixture)) fixtures).
    { intros Hrest. apply Hreg. constructor; eauto. }
    destruct (negb _); by apply IH.
Qed.

Lemma computeWorkerRegistrationHash_registered registrations fixtures :
  allRegistered registrations fixtures ->
  hashOf registrations fixtures
  = Returned (Hash.digest sha1_hex
                (fold_left Hash.update (workerLocations registrations fixtures)
                   Hash.createHash)).
Proof.
  intros Hreg. unfold computeWorkerRegistrationHash.
  by rewrite feedWorkerLocations_registered.
Qed.

Lemma serializeConfiguration_joinedPairs (configuration : Configuration Value) :
  serializeConfiguration renderValue configuration = joinedPairs renderValue configuration.
Proof.
  unfold serializeConfiguration.
  induction configuration as [|[name value] rest IH]; [reflexivity|].
  cbn [map String.concat joinedPairs]. destruct rest as [|pair rest]; [reflexivity|].
  rewrite <- IH. cbn [map]. by rewrite !append_assoc.
Qed.

(** What the loop body does to a test that line 40 lets through, when its
    fixtures are registered. *)
Lemma visitTest_accepted env config path test grep grep' :
  accepts grep (fullTitle (path ++ [test_title test])) = (true, grep') ->
  allRegistered (registrations env) (resolveFixtures env test) ->
  exists hash,
    hashOf (registrations env) (resolveFixtures env test) = Returned hash /\
    visit env config path test grep
    = Returned (pushRuns test
                  (materializeRuns renderValue hash
                     (generatorConfigurations (matrix env) (resolveFixtures env test))
                     (repeatEach config)),
                grep').
Proof.
  intros Hgrep Hreg. eexists. split.
  - by apply computeWorkerRegistrationHash_registered.
  - unfold visitTest. rewrite Hgrep. unfold generateRuns.
    by rewrite computeWorkerRegistrationHash_registered.
Qed.

Lemma visitTest_skipped env config path test grep grep' :
  accepts grep (fullTitle (path ++ [test_title test])) = (false, grep') ->
  visit env config path test grep = Returned (test, grep').
Proof. intros Hgrep. unfold visitTest. by rewrite Hgrep. Qed.

Lemma materializeRuns_elem hash (configurations : list (Configuration Value)) n run :
  run ∈ materializeRuns renderValue hash configurations n ->
  exists configuration i,
    configuration ∈ configurations /\ i < n /\
    run = newTestRun renderValue hash configuration i.
Proof.
  unfold materializeRuns. rewrite list_elem_of_In, in_flat_map.
  intros (configuration & Hin & Hrun). apply in_map_iff in Hrun as (i & <- & Hi).
  apply in_seq in Hi. exists configuration, i. rewrite list_elem_of_In. auto with lia.
Qed.

(** C1 (as amended): for a test that line 40 lets through and whose fixtures
    are registered, if no generator fixture of the test has an empty domain,
    the visit leaves the test with its title, callback and exclusivity mark
    as they were and with its run list followed by new runs, whose number is
    the product of the sizes of the domains of its generator fixtures times
    [repeatEach]; with no generator fixture at all it is [repeatEach]. *)
Theorem run_count_is_domain_product env config path test grep grep' :
  accepts grep (fullTitle (path ++ [test_title test])) = (true, grep') ->
  allRegistered (registrations env) (resolveFixtures env test) ->
  Forall (fun domain => domain <> [])
         (generatorDomains (matrix env) (resolveFixtures env test)) ->
  exists pushed,
    visit env config path test grep
    = Returned ({| test_title := test_title test; fn := fn test;
                   test_only := test_only test; runs := runs test ++ pushed |},
                grep') /\
    length pushed
    = domainProduct (matrix env) (resolveFixtures env test) * repeatEach config /\
    (generatorDomains (matrix env) (resolveFixtures env test) = [] ->
     length pushed = repeatEach config).
Proof.
  intros Hgrep Hreg Hdomains.
  destruct (visitTest_accepted env config path test grep grep' Hgrep Hreg)
    as (hash & _ & Hvisit).
  eexists. split; [exact Hvisit|].
  rewrite materializeRuns_length, generatorConfigurations_length by done.
  split; [reflexivity|]. intros Hnone. unfold domainProduct. rewrite Hnone. cbn. lia.
Qed.



(** C5: the worker hash depends on the fixture names through the locations
    of their worker-scoped registrations only: with every name registered it
    is the digest of these locations, fed in list order (with a name that
    has no registration the computation throws); so two fixture lists, under
    the same registrations or not, with the same sequence of such locations
    get the same hash. *)
Theorem worker_hash_of_locations registrations1 fixtures1 registrations2 fixtures2 :
  (allRegistered registrations1 fixtures1 ->
   hashOf registrations1 fixtures1
   = Returned (Hash.digest sha1_hex
                 (fold_left Hash.update (workerLocations registrations1 fixtures1)
                    Hash.createHash))) /\
  (~ allRegistered registrations1 fixtures1 ->
   hashOf registrations1 fixtures1 = Thrown TypeError) /\
  (allRegistered registrations1 fixtures1 ->
   allRegistered registrations2 fixtures2 ->
   workerLocations registrations1 fixtures1 = workerLocations registrations2 fixtures2 ->
   hashOf registrations1 fixtures1 = hashOf registrations2 fixtures2).
Proof.
  split; [|split].
  - apply computeWorkerRegistrationHash_registered.
  - intros Hreg. unfold computeWorkerRegistrationHash.
    by rewrite feedWorkerLocations_unregistered.
  - intros Hreg1 Hreg2 Hsame.
    rewrite !computeWorkerRegistrationHash_registered by done. by rewrite Hsame.
Qed.

(** C7: when [fixturesForCallback] throws for a test that line 40 lets
    through, the test is visited without an exception: its title, callback
    and exclusivity mark stay, and its run list is followed by one run of
    the empty configuration per repeat index, under the hash of no fixture;
    the tests after it are visited from the state [grep] was left in. *)
Theorem unresolved_fixtures_are_no_fixtures env config path test rest grep grep' e :
  fixturesForCallback env (fn test) = Thrown e ->
  accepts grep (fullTitle (path ++ [test_title test])) = (true, grep') ->
  let test' :=
    {| test_title := test_title test; fn := fn test; test_only := test_only test;
       runs := runs test ++ map (bareRun sha1_hex) (seq 0 (repeatEach config)) |} in
  resolveFixtures env test = [] /\
  visit env config path test grep = Returned (test', grep') /\
  gen_mapM (visit env config path) (test :: rest) grep
  = outcome_map (fun '(rest', grep'') => (test' :: rest', grep''))
      (gen_mapM (visit env config path) rest grep').
Proof.
  intros Hthrow Hgrep test'.
  assert (resolveFixtures env test = []) as Hfixtures.
  { unfold resolveFixtures. by rewrite Hthrow. }
  assert (visit env config path test grep = Returned (test', grep')) as Hvisit.
  { unfold visitTest. rewrite Hgrep. unfold generateRuns. rewrite Hfixtures.
    cbn. unfold test', pushRuns. do 3 f_equal. by rewrite app_nil_r. }
  split; [exact Hfixtures|]. split; [exact Hvisit|].
  cbn [gen_mapM]. unfold gen_bind at 1. rewrite Hvisit. cbn.
  unfold gen_bind, outcome_map, outcome_bind, gen_ret.
  destruct (gen_mapM _ rest grep') as [[rest' grep'']|]; reflexivity.
Qed.

End Generation.

(** ** The declaration tree *)

Section Tree.
Context {Value Callback : Type}.

Implicit Types (suite child chain : SuiteDeclaration Value Callback).
Implicit Types (suites : list (SuiteDeclaration Value Callback)).
Implicit Types (test : TestDeclaration Value Callback).
Implicit Types (tests : list (TestDeclaration Value Callback)).

(** Induction on a suite, with the property at hand for its nested suites. *)
Lemma suite_induction (P : SuiteDeclaration Value Callback -> Prop) :
  (forall title file only suites tests,
     Forall P suites -> P (Suite title file only suites tests)) ->
  forall suite, P suite.
Proof.
  intros Hsuite. fix IH 1. intros [title file only suites tests].
  apply Hsuite. induction suites as [|child suites IHsuites]; constructor.
  - apply IH.
  - exact IHsuites.
Qed.

Lemma filterOnly_unfold title file only suites tests :
  filterOnly (Suite title file only suites tests)
  = let onlySuites := omap keepExclusive suites in
    let onlyTests := filter (fun test => test_only test = true) tests in
    if negb (length onlySuites =? 0) || negb (length onlyTests =? 0)
    then (true, Suite title file only onlySuites onlyTests)
    else (false, Suite title file only suites tests).
Proof. reflexivity. Qed.

Lemma exclusiveTests_unfold title file only suites tests :
  exclusiveTests (Suite title file only suites tests)
  = filter (fun test => test_only test = true) (flat_map allTests suites)
    ++ filter (fun test => test_only test = true) tests.
Proof. unfold exclusiveTests. cbn [allTests]. apply filter_app. Qed.

Lemma exclusiveTests_flat_map_cons child suites :
  filter (fun test => test_only test = true) (flat_map allTests (child :: suites))
  = exclusiveTests child
    ++ filter (fun test => test_only test = true) (flat_map allTests suites).
Proof. cbn [flat_map]. apply filter_app. Qed.

Lemma nestedSuites_children title file only suites tests (P : _ -> Prop) :
  Forall P (nestedSuites (Suite title file only suites tests)) <->
  Forall (fun child => P child /\ Forall P (nestedSuites child)) suites.
Proof.
  cbn [nestedSuites]. induction suites as [|child suites IH]; cbn [flat_map].
  - split; constructor.
  - rewrite Forall_cons, Forall_app, Forall_cons, IH. tauto.
Qed.

Lemma noExclusive_children title file only suites tests :
  noExclusive (Suite title file only suites tests) ->
  Forall (fun child => noExclusive child /\ suite_only child = false) suites /\
  filter (fun test => test_only test = true) tests = [].
Proof.
  unfold noExclusive at 1. rewrite exclusiveTests_unfold, nestedSuites_children.
  intros [[Hnested Htests]%app_eq_nil Hsuites]. split; [|exact Htests].
  clear Htests. induction Hsuites as [|child suites [Honly Hbelow] _ IH].
  - constructor.
  - rewrite exclusiveTests_flat_map_cons in Hnested.
    apply app_eq_nil in Hnested as [Hchild Hrest].
    constructor; [|by apply IH]. by repeat split.
Qed.

(** Without an exclusive declaration, [filterOnly] answers [false] and
    leaves the suite as it was. *)
Lemma filterOnly_noExclusive suite :
  noExclusive suite -> filterOnly suite = (false, suite).
Proof.
  induction suite as [title file only suites tests IH] using suite_induction.
  intros [Hsuites Htests]%noExclusive_children.
  rewrite filterOnly_unfold, Htests.
  assert (omap keepExclusive suites = []) as ->; [|reflexivity].
  induction Hsuites as [|child suites [Hchild Honly] _ IHsuites]; [reflexivity|].
  apply Forall_cons in IH as [IHchild IH].
  cbn [omap list_omap]. unfold keepExclusive at 1.
  rewrite (IHchild Hchild), Honly. cbn. by apply IHsuites.
Qed.

Lemma nestedSuites_allTests suite child test :
  In child (nestedSuites suite) -> In test (allTests child) -> In test (allTests suite).
Proof.
  revert child.
  induction suite as [title file only suites tests IH] using suite_induction.
  intros child Hchild Htest. cbn [nestedSuites allTests] in *.
  apply in_flat_map in Hchild as (direct & Hdirect & Hchild).
  apply in_or_app. left. apply in_flat_map. exists direct. split; [exact Hdirect|].
  destruct Hchild as [->|Hbelow]; [exact Htest|].
  rewrite Forall_forall in IH. eapply IH; [by apply list_elem_of_In|exact Hbelow|exact Htest].
Qed.

(** A suite free of exclusive tests, in which every exclusive suite holds
    one, has no exclusive suite either. *)
Lemma exclusive_free suite :
  exclusiveTests suite = [] ->
  exclusiveSuitesHoldExclusiveTest suite ->
  noExclusive suite.
Proof.
  intros Htests Hhold. split; [exact Htests|].
  unfold exclusiveSuitesHoldExclusiveTest in Hhold.
  rewrite Forall_forall in Hhold |- *. intros child Hchild.
  destruct (suite_only child) eqn:Honly; [|reflexivity].
  destruct (exclusiveTests child) as [|test rest] eqn:Hexclusive.
  { by destruct (Hhold child Hchild). }
  assert (test ∈ exclusiveTests suite) as Hin; [|rewrite Htests in Hin; inversion Hin].
  assert (test ∈ exclusiveTests child) as Hin by (rewrite Hexclusive; left).
  unfold exclusiveTests in *. apply list_elem_of_filter in Hin as [Hmarked Hin].
  apply list_elem_of_filter. split; [exact Hmarked|].
  apply list_elem_of_In. apply list_elem_of_In in Hchild, Hin.
  by eapply nestedSuites_allTests.
Qed.

Lemma keepExclusive_free child :
  exclusiveTests child = [] ->
  (suite_only child = true -> exclusiveTests child <> []) ->
  exclusiveSuitesHoldExclusiveTest child ->
  keepExclusive child = None.
Proof.
  intros Htests Honly Hhold. unfold keepExclusive.
  rewrite (filterOnly_noExclusive child (exclusive_free child Htests Hhold)).
  destruct (suite_only child); [|reflexivity]. by destruct Honly.
Qed.

Lemma onlySuites_free suites :
  filter (fun test => test_only test = true) (flat_map allTests suites) = [] ->
  Forall (fun child => (suite_only child = true -> exclusiveTests child <> []) /\
                       exclusiveSuitesHoldExclusiveTest child) suites ->
  omap keepExclusive suites = [].
Proof.
  intros Htests Hhold. induction Hhold as [|child suites [Honly Hchild] _ IH].
  - reflexivity.
  - rewrite exclusiveTests_flat_map_cons in Htests.
    apply app_eq_nil in Htests as [Htests Hrest].
    cbn [omap list_omap]. rewrite keepExclusive_free by done. by apply IH.
Qed.

Lemma onlySuites_single suites test :
  Forall (fun child =>
            forall test, exclusiveTests child = [test] ->
              exclusiveSuitesHoldExclusiveTest child ->
              exists chain, filterOnly child = (true, chain) /\
                            OnlyPath test child chain) suites ->
  filter (fun test => test_only test = true) (flat_map allTests suites) = [test] ->
  Forall (fun child => (suite_only child = true -> exclusiveTests child <> []) /\
                       exclusiveSuitesHoldExclusiveTest child) suites ->
  exists child chain,
    child ∈ suites /\ OnlyPath test child chain /\
    omap keepExclusive suites = [chain].
Proof.
  intros IH Htests Hhold. revert IH Htests.
  induction Hhold as [|child suites [Honly Hchild] Hhold IHsuites]; intros IH Htests.
  - discriminate.
  - apply Forall_cons in IH as [IHchild IH].
    rewrite exclusiveTests_flat_map_cons in Htests.
    apply app_eq_unit in Htests as [[Hfree Hrest]|[Hhere Hrest]].
    + destruct (IHsuites IH Hrest) as (below & chain & Hin & Hpath & Hkept).
      exists below, chain. split; [by right|]. split; [exact Hpath|].
      cbn [omap list_omap]. by rewrite keepExclusive_free.
    + destruct (IHchild test Hhere Hchild) as (chain & Hfilter & Hpath).
      exists child, chain. split; [by left|]. split; [exact Hpath|].
      cbn [omap list_omap]. unfold keepExclusive at 1. rewrite Hfilter. cbn.
      by rewrite onlySuites_free.
Qed.

(** With a single exclusive test, and no exclusive suite but suites it is
    nested in, [filterOnly] leaves the test and the suites around it. *)
Lemma filterOnly_single suite test :
  exclusiveTests suite = [test] ->
  exclusiveSuitesHoldExclusiveTest suite ->
  exists chain, filterOnly suite = (true, chain) /\ OnlyPath test suite chain.
Proof.
  revert test.
  induction suite as [title file only suites tests IH] using suite_induction.
  intros test Htests Hhold.
  unfold exclusiveSuitesHoldExclusiveTest in Hhold.
  rewrite nestedSuites_children in Hhold.
  rewrite exclusiveTests_unfold in Htests. rewrite filterOnly_unfold.
  apply app_eq_unit in Htests as [[Hnested Hdirect]|[Hnested Hdirect]].
  - rewrite onlySuites_free, Hdirect by done. cbn.
    eexists. split; [reflexivity|]. constructor.
    assert (test ∈ filter (fun test => test_only test = true) tests) as Hin
      by (rewrite Hdirect; left).
    by apply list_elem_of_filter in Hin as [_ Hin].
  - destruct (onlySuites_single suites test IH Hnested Hhold)
      as (child & chain & Hin & Hpath & ->).
    rewrite Hdirect. cbn. eexists. split; [reflexivity|].
    by eapply OnlyPath_below.
Qed.

(** C3 (as amended): when exactly one test of the tree is marked exclusive
    and every suite marked exclusive is one that test is nested in,
    [filterOnly] on the root leaves that test and the suites it is nested
    in, and nothing else; when no test and no suite below the root is marked
    exclusive, [filterOnly] leaves the tree as it was. *)
Theorem only_filter_keeps_the_exclusive_path :
  (forall suite test,
     exclusiveTests suite = [test] ->
     exclusiveSuitesHoldExclusiveTest suite ->
     OnlyPath test suite (snd (filterOnly suite)) /\
     allTests (snd (filterOnly suite)) = [test]) /\
  (forall suite, noExclusive suite -> snd (filterOnly suite) = suite).
Proof.
  split.
  - intros suite test Htests Hhold.
    destruct (filterOnly_single suite test Htests Hhold) as (chain & -> & Hpath).
    split; [exact Hpath|]. cbn [snd]. clear Htests Hhold.
    induction Hpath as [|title file only suites tests child chain _ _ IH].
    + reflexivity.
    + cbn [allTests flat_map]. rewrite IH. reflexivity.
  - intros suite Hnone. by rewrite filterOnly_noExclusive.
Qed.

End Tree.

(** ** The whole pass *)

Section Pass.
Context {Value : Type} (renderValue : Value -> string) {Callback : Type}.
Context (sha1_hex : string -> string).
Context (regexpSyntax : string -> bool).
Context (regexpExec : string -> bool -> string -> nat -> option nat).
Context (rerunRegistrations : string -> Fixtures Value Callback).
Context (fullTitle : list string -> string).

Implicit Types (env : Fixtures Value Callback) (config : RunnerConfig).
Implicit Types (test : TestDeclaration Value Callback) (grep : option RegExp).
Implicit Types (suite : SuiteDeclaration Value Callback).
Implicit Types (suites : list (SuiteDeclaration Value Callback)).

Local Abbreviation visit := (visitTest renderValue sha1_hex regexpExec fullTitle).
Local Abbreviation walk := (visitAllTests renderValue sha1_hex regexpExec fullTitle).
Local Abbreviation loop :=
  (visitSuites renderValue sha1_hex regexpExec rerunRegistrations fullTitle).
Local Abbreviation generate :=
  (generateTests renderValue sha1_hex regexpSyntax regexpExec rerunRegistrations fullTitle).

(** A visit that keeps [bare] of every element keeps it on the whole list. *)
Lemma gen_mapM_bare {A : Type} (f : A -> Gen A) (bare : A -> A) (l l' : list A)
    grep grep' :
  Forall (fun a => forall grep a' grep',
            f a grep = Returned (a', grep') -> bare a' = bare a) l ->
  gen_mapM f l grep = Returned (l', grep') ->
  map bare l' = map bare l.
Proof.
  intros Hl. revert l' grep grep'.
  induction Hl as [|a l Ha _ IH]; intros l' grep grep' Hvisit.
  - cbn in Hvisit. by inversion Hvisit.
  - cbn [gen_mapM] in Hvisit. unfold gen_bind at 1 in Hvisit.
    destruct (f a grep) as [[a' grep1]|e] eqn:Hfa; [|discriminate].
    cbn in Hvisit. unfold gen_bind at 1 in Hvisit.
    destruct (gen_mapM f l grep1) as [[rest grep2]|e] eqn:Hrest; [|discriminate].
    cbn in Hvisit. inversion Hvisit; subst. cbn [map].
    f_equal; [by eapply Ha|by eapply IH].
Qed.

Lemma visitTest_bare env config path test grep test' grep' :
  visit env config path test grep = Returned (test', grep') ->
  eraseTestRuns test' = eraseTestRuns test.
Proof.
  unfold visitTest. destruct (grepAccepts _ _ _) as [[] grep1].
  - unfold generateRuns. destruct (computeWorkerRegistrationHash _ _ _); [|discriminate].
    cbn. intros [= <- _]. reflexivity.
  - by intros [= <- _].
Qed.

Lemma visitAllTests_bare env config path suite grep suite' grep' :
  walk env config path suite grep = Returned (suite', grep') ->
  eraseRuns suite' = eraseRuns suite.
Proof.
  revert path grep suite' grep'.
  induction suite as [title file only suites tests IH] using suite_induction.
  intros path grep suite' grep'. cbn [visitAllTests]. unfold gen_bind at 1.
  destruct (gen_mapM _ suites grep) as [[suites' grep1]|e] eqn:Hsuites; [|discriminate].
  cbn. unfold gen_bind at 1.
  destruct (gen_mapM _ tests grep1) as [[tests' grep2]|e] eqn:Htests; [|discriminate].
  cbn. intros [= <- _]. cbn [eraseRuns]. f_equal.
  - eapply gen_mapM_bare; [|exact Hsuites].
    eapply Forall_impl; [exact IH|]. cbn. eauto.
  - eapply gen_mapM_bare; [|exact Htests].
    apply Forall_forall. intros test _ grep0 test' grep0'. apply visitTest_bare.
Qed.

Lemma visitSuites_bare suites config grep suites' grep' :
  loop suites config grep = Returned (suites', grep') ->
  map eraseRuns suites' = map eraseRuns suites.
Proof.
  apply gen_mapM_bare. apply Forall_forall.
  intros suite _ grep0 suite' grep0'. apply visitAllTests_bare.
Qed.

(** [filterOnly] does not look at the run lists. *)
Lemma filterOnly_bare suite :
  filterOnly (eraseRuns suite)
  = (fst (filterOnly suite), eraseRuns (snd (filterOnly suite))).
Proof.
  induction suite as [title file only suites tests IH] using suite_induction.
  cbn [eraseRuns]. rewrite !filterOnly_unfold.
  assert (omap keepExclusive (map eraseRuns suites)
          = map eraseRuns (omap keepExclusive suites)) as ->.
  { induction IH as [|child suites Hchild _ IHsuites]; [reflexivity|].
    cbn [map omap list_omap]. rewrite IHsuites.
    assert (keepExclusive (eraseRuns child)
            = option_map eraseRuns (keepExclusive child)) as ->.
    { unfold keepExclusive. rewrite Hchild.
      destruct (filterOnly child) as [kept child']. cbn [fst snd].
      assert (suite_only (eraseRuns child) = suite_only child) as ->
        by by destruct child.
      destruct (kept || suite_only child); reflexivity. }
    destruct (keepExclusive child); reflexivity. }
  assert (filter (fun test => test_only test = true) (map eraseTestRuns tests)
          = map eraseTestRuns (filter (fun test => test_only test = true) tests)) as ->.
  { induction tests as [|test tests IHtests]; [reflexivity|].
    cbn [map]. rewrite !filter_cons, IHtests. cbn [eraseTestRuns test_only].
    destruct (decide (test_only test = true)); reflexivity. }
  cbn zeta. rewrite !length_map.
  destruct (negb _ || negb _); reflexivity.
Qed.

(** A title in which the pattern occurs nowhere is refused by line 40, where
    ever the search starts, as long as the engine finds from a later index
    only what occurs in the title. *)
Lemma grepAccepts_no_match r title :
  (forall from e,
     regexpExec (source r) (ignoreCase r) title from = Some e ->
     titleMatches regexpExec r title) ->
  ~ titleMatches regexpExec r title ->
  fst (grepAccepts regexpExec (Some r) title) = false.
Proof.
  intros Hengine Hnone. unfold grepAccepts, RegExp_test.
  destruct (String.length title <? _); [reflexivity|].
  destruct (regexpExec _ _ _ _) as [e|] eqn:Hexec; [|reflexivity].
  destruct Hnone. by eapply Hengine.
Qed.

(** C10: a test that line 40 skips is left as it is, run list included, and
    stays in its suite, and line 40 skips every test in whose title the
    pattern occurs nowhere (the engine finding from a later index only what
    occurs in the title); the declarations of the tree [generateTests]
    returns are those [filterOnly] keeps of the declarations it was given,
    whatever the grep pattern; without exclusive declarations they are all
    there. *)
Theorem grep_removes_no_declaration :
  (forall env config path test grep grep',
     grepAccepts regexpExec grep (fullTitle (path ++ [test_title test])) = (false, grep') ->
     visit env config path test grep = Returned (test, grep')) /\
  (forall env config path test r,
     (forall from e,
        regexpExec (source r) (ignoreCase r)
          (fullTitle (path ++ [test_title test])) from = Some e ->
        titleMatches regexpExec r (fullTitle (path ++ [test_title test]))) ->
     ~ titleMatches regexpExec r (fullTitle (path ++ [test_title test])) ->
     exists grep', visit env config path test (Some r) = Returned (test, grep')) /\
  (forall suites config root,
     generate suites config = Returned root ->
     eraseRuns root = snd (filterOnly (eraseRuns (rootSuite suites))) /\
     (noExclusive (rootSuite suites) -> eraseRuns root = eraseRuns (rootSuite suites))).
Proof.
  split; [|split].
  - intros env config path test grep grep' Hgrep. unfold visitTest. by rewrite Hgrep.
  - intros env config path test r Hengine Hnone.
    pose proof (grepAccepts_no_match r _ Hengine Hnone) as Hskip.
    unfold visitTest. destruct (grepAccepts _ _ _) as [accepted grep'].
    cbn in Hskip. subst accepted. by exists grep'.
  - intros suites config root. unfold generateTests.
    destruct (parseGrep regexpSyntax config) as [grep|e]; [|discriminate].
    cbn [outcome_bind].
    destruct (loop suites config grep) as [[suites' grep']|e] eqn:Hloop; [|discriminate].
    cbn [outcome_bind]. intros Hreturned.
    assert (root = snd (filterOnly (rootSuite suites'))) as -> by congruence.
    clear Hreturned.
    assert (eraseRuns (rootSuite suites') = eraseRuns (rootSuite suites)) as Hbare.
    { unfold rootSuite. cbn [eraseRuns]. f_equal. by eapply visitSuites_bare. }
    assert (eraseRuns (snd (filterOnly (rootSuite suites')))
            = snd (filterOnly (eraseRuns (rootSuite suites)))) as Hroot.
    { rewrite <- Hbare, filterOnly_bare. reflexivity. }
    split; [exact Hroot|]. intros Hnone. rewrite Hroot, filterOnly_bare.
    cbn [snd]. by rewrite filterOnly_noExclusive.
Qed.

End Pass.

(** ** The grep pattern *)

Lemma startsLineTerminator_app (s rest : list ascii) :
  startsLineTerminator s = true -> startsLineTerminator (s ++ rest) = true.
Proof.
  destruct s as [|c [|c1 [|c2 s]]]; cbn [startsLineTerminator app]; try done.
  - rewrite andb_false_r, orb_false_r. by intros ->.
  - rewrite andb_false_r, orb_false_r. by intros ->.
Qed.

Lemma dotStar_noLineTerminator (s : string) :
  noLineTerminator s -> dotStar (list_ascii_of_string s) = list_ascii_of_string s.
Proof.
  unfold noLineTerminator. induction (list_ascii_of_string s) as [|c l IH]; [reflexivity|].
  cbn [lineTerminatorFree dotStar]. intros [Hc Hl]%andb_true_iff.
  apply negb_true_iff in Hc. by rewrite Hc, IH.
Qed.

(** What [dotStar] leaves out is empty or starts with a line terminator. *)
Lemma dotStar_prefix (s : list ascii) :
  exists rest,
    s = dotStar s ++ rest /\
    lineTerminatorFree (dotStar s) = true /\
    (rest = [] \/ startsLineTerminator rest = true).
Proof.
  induction s as [|c s (rest & Hs & Hprefix & Hrest)].
  - exists []. split; [reflexivity|]. split; [reflexivity|by left].
  - cbn [dotStar]. destruct (startsLineTerminator (c :: s)) eqn:Hc.
    + exists (c :: s). split; [reflexivity|]. split; [reflexivity|by right].
    + exists rest. split; [by rewrite Hs at 1|]. split; [|exact Hrest].
      cbn [lineTerminatorFree]. rewrite Hprefix, andb_true_r. apply negb_true_iff.
      destruct (startsLineTerminator (c :: dotStar s)) eqn:Hstart; [|reflexivity].
      apply (startsLineTerminator_app _ rest) in Hstart.
      cbn [app] in Hstart. rewrite <- Hs in Hstart. congruence.
Qed.

Lemma matchDelimited_delimited (body : list ascii) (flag : Flag) :
  lineTerminatorFree body = true ->
  matchDelimited ("/"%char :: body ++ "/"%char :: list_ascii_of_string (flagText flag))
  = Some (body, flag).
Proof.
  intros Hbody. unfold matchDelimited. rewrite rev_app_distr.
  destruct flag; cbn [flagText list_ascii_of_string rev app];
    by rewrite rev_involutive, Hbody.
Qed.

Local Ltac refute_match := let H := fresh in intros H; cbn in H; discriminate H.

Lemma matchDelimited_inv (s body : list ascii) (flag : Flag) :
  matchDelimited s = Some (body, flag) ->
  s = "/"%char :: body ++ "/"%char :: list_ascii_of_string (flagText flag) /\
  lineTerminatorFree body = true.
Proof.
  destruct s as [|c rest]; [refute_match|].
  destruct c as [[] [] [] [] [] [] [] []]; try refute_match.
  unfold matchDelimited. rewrite <- (rev_involutive rest) at 2.
  destruct (rev rest) as [|last before]; [refute_match|].
  destruct last as [[] [] [] [] [] [] [] []]; try refute_match.
  - destruct (lineTerminatorFree (rev before)) eqn:Hbefore; [|refute_match].
    intros [= <- <-]. by cbn [rev flagText list_ascii_of_string].
  - destruct before as [|slash inner]; [refute_match|].
    destruct slash as [[] [] [] [] [] [] [] []]; try refute_match.
    destruct (lineTerminatorFree (rev inner)) eqn:Hinner; [|refute_match].
    intros [= <- <-]. cbn [rev flagText list_ascii_of_string].
    by rewrite <- !app_assoc.
  - destruct before as [|slash inner]; [refute_match|].
    destruct slash as [[] [] [] [] [] [] [] []]; try refute_match.
    destruct (lineTerminatorFree (rev inner)) eqn:Hinner; [|refute_match].
    intros [= <- <-]. cbn [rev flagText list_ascii_of_string].
    by rewrite <- !app_assoc.
Qed.

Lemma list_ascii_of_delimited (body : string) (flag : Flag) :
  list_ascii_of_string ("/" +:+ body +:+ "/" +:+ flagText flag)
  = "/"%char :: list_ascii_of_string body ++ "/"%char :: list_ascii_of_string (flagText flag).
Proof. by rewrite !list_ascii_of_append. Qed.

(** A delimited input: the body, or the whole input when the body is empty,
    and the flag. *)
Lemma grepArguments_delimited_any (body : string) (flag : Flag) :
  noLineTerminator body ->
  grepArguments ("/" +:+ body +:+ "/" +:+ flagText flag)
  = (if String.eqb body "" then "/" +:+ body +:+ "/" +:+ flagText flag else body,
     Some flag).
Proof.
  intros Hline. unfold grepArguments, grepMatch.
  rewrite list_ascii_of_delimited, matchDelimited_delimited by exact Hline.
  rewrite string_of_list_ascii_of_string. cbn [truthy default].
  by destruct (String.eqb body "").
Qed.

Lemma grepArguments_delimited (body : string) (flag : Flag) :
  body <> "" -> noLineTerminator body ->
  grepArguments ("/" +:+ body +:+ "/" +:+ flagText flag) = (body, Some flag).
Proof.
  intros Hbody Hline. rewrite grepArguments_delimited_any by exact Hline.
  destruct (String.eqb_spec body ""); [done|reflexivity].
Qed.

(** An input that is not delimited: what comes before its first line
    terminator, and no flag. *)
Lemma grepArguments_not_delimited (input : string) :
  (forall body flag,
     noLineTerminator body -> input <> "/" +:+ body +:+ "/" +:+ flagText flag) ->
  grepArguments input
  = (string_of_list_ascii (dotStar (list_ascii_of_string input)), None).
Proof.
  intros Hnot. unfold grepArguments, grepMatch.
  destruct (matchDelimited (list_ascii_of_string input)) as [[body flag]|] eqn:Hmatch;
    [|reflexivity].
  apply matchDelimited_inv in Hmatch as [Hinput Hbody].
  destruct (Hnot (string_of_list_ascii body) flag).
  - unfold noLineTerminator. by rewrite list_ascii_of_string_of_list_ascii.
  - apply list_ascii_of_string_inj.
    by rewrite list_ascii_of_delimited, list_ascii_of_string_of_list_ascii.
Qed.

Lemma grepArguments_whole (input : string) :
  (forall body flag,
     noLineTerminator body -> input <> "/" +:+ body +:+ "/" +:+ flagText flag) ->
  noLineTerminator input ->
  grepArguments input = (input, None).
Proof.
  intros Hnot Hline. rewrite grepArguments_not_delimited by exact Hnot.
  rewrite dotStar_noLineTerminator by exact Hline.
  by rewrite string_of_list_ascii_of_string.
Qed.

Section Grep.
Context (regexpSyntax : string -> bool).

(** C6 (as amended): for a non-empty grep string, an input [/body/flag]
    whose body is non-empty and free of line terminators and whose flag is
    [g], [i] or none is handed to [RegExp] as that body with that flag; an
    input free of line terminators that is not of the form [/body/flag] (for
    any body, the empty one too) is handed over whole, with no flag; and the
    pass goes on with the expression when [RegExp] takes the pattern, and
    throws a syntax error when it does not. *)
Theorem grep_pattern_is_parsed config input :
  grep config = Some input ->
  input <> "" ->
  (forall body flag,
     body <> "" -> noLineTerminator body ->
     input = "/" +:+ body +:+ "/" +:+ flagText flag ->
     grepArguments input = (body, Some flag)) /\
  ((forall body flag,
      noLineTerminator body -> input <> "/" +:+ body +:+ "/" +:+ flagText flag) ->
   noLineTerminator input ->
   grepArguments input = (input, None)) /\
  (regexpSyntax (fst (grepArguments input)) = true ->
   parseGrep regexpSyntax config
   = Returned (Some {| source := fst (grepArguments input);
                       global := match snd (grepArguments input) with
                                 | Some FlagG => true | _ => false end;
                       ignoreCase := match snd (grepArguments input) with
                                     | Some FlagI => true | _ => false end;
                       lastIndex := 0 |})) /\
  (regexpSyntax (fst (grepArguments input)) = false ->
   parseGrep regexpSyntax config = Thrown SyntaxError).
Proof.
  intros Hgrep Hinput.
  split; [|split].
  - intros body flag Hbody Hline ->. by apply grepArguments_delimited.
  - apply grepArguments_whole.
  - unfold parseGrep. rewrite Hgrep. change (default "" (Some input)) with input.
    cbn [truthy]. destruct (String.eqb_spec input ""); [done|]. cbn [negb].
    destruct (grepArguments input) as [pattern flags]. cbn [fst snd].
    unfold RegExp_new. split; intros Hsyntax; rewrite Hsyntax; reflexivity.
Qed.

End Grep.

(** ** The generator at work *)

Local Ltac evaluated :=
  unfold allRegistered; apply (bool_decide_unpack _); vm_compute; exact I.

(** C1, as stated, fails on a generator fixture with an empty domain: the
    product of the sizes is 0, and the test still gets [repeatEach] runs. *)
Lemma empty_domain_still_yields_runs :
  generatorDomains (matrix Demo.fixturesEnv)
    (resolveFixtures Demo.fixturesEnv Demo.emptyDomainTest) = [[]] /\
  domainProduct (matrix Demo.fixturesEnv)
    (resolveFixtures Demo.fixturesEnv Demo.emptyDomainTest)
  * repeatEach (Demo.repeated 2) = 0 /\
  runs Demo.emptyDomainTest = [] /\
  Demo.visit (Demo.repeated 2) ["A"] Demo.emptyDomainTest None
  = Returned ({| test_title := test_title Demo.emptyDomainTest;
                 fn := fn Demo.emptyDomainTest;
                 test_only := test_only Demo.emptyDomainTest;
                 runs := [bareRun Demo.digest 0; bareRun Demo.digest 1] |}, None).
Proof. repeat split; vm_compute; reflexivity. Qed.

(** The premises of C1 (as amended) hold of a test on [browser] and [page]. *)
Lemma run_count_is_domain_product_witness :
  exists pushed,
    Demo.visit (Demo.repeated 2) ["A"] Demo.browserTest None
    = Returned ({| test_title := test_title Demo.browserTest;
                   fn := fn Demo.browserTest;
                   test_only := test_only Demo.browserTest;
                   runs := runs Demo.browserTest ++ pushed |}, None) /\
    length pushed
    = domainProduct (matrix Demo.fixturesEnv)
        (resolveFixtures Demo.fixturesEnv Demo.browserTest)
      * repeatEach (Demo.repeated 2) /\
    (generatorDomains (matrix Demo.fixturesEnv)
       (resolveFixtures Demo.fixturesEnv Demo.browserTest) = [] ->
     length pushed = repeatEach (Demo.repeated 2)).
Proof.
  apply (run_count_is_domain_product Demo.renderValue Demo.digest Demo.regexpExec
           Demo.fullTitle Demo.fixturesEnv (Demo.repeated 2) ["A"] Demo.browserTest
           None None); [reflexivity|evaluated|evaluated].
Defined.



(** The premises of C5 hold of two fixture lists whose only worker-scoped
    registration is that of [page]. *)
Lemma worker_hash_of_locations_witness :
  computeWorkerRegistrationHash Demo.digest (registrations Demo.fixturesEnv)
    ["browser"; "page"]
  = computeWorkerRegistrationHash Demo.digest (registrations Demo.fixturesEnv)
      ["page"; "empty"].
Proof.
  apply (proj2 (proj2 (worker_hash_of_locations Demo.digest
                         (registrations Demo.fixturesEnv) ["browser"; "page"]
                         (registrations Demo.fixturesEnv) ["page"; "empty"])));
    [evaluated|evaluated|reflexivity].
Defined.

(** The premises of C7 hold of a test whose callback cannot be resolved,
    followed by one that can. *)
Lemma unresolved_fixtures_are_no_fixtures_witness :
  resolveFixtures Demo.fixturesEnv Demo.brokenTest = [] /\
  Demo.visit (Demo.repeated 2) ["A"] Demo.brokenTest None
  = Returned ({| test_title := test_title Demo.brokenTest;
                 fn := fn Demo.brokenTest;
                 test_only := test_only Demo.brokenTest;
                 runs := runs Demo.brokenTest
                         ++ map (bareRun Demo.digest)
                              (seq 0 (repeatEach (Demo.repeated 2))) |},
              None) /\
  gen_mapM (Demo.visit (Demo.repeated 2) ["A"]) [Demo.brokenTest; Demo.browserTest] None
  = outcome_map
      (fun '(rest', grep'') =>
         ({| test_title := test_title Demo.brokenTest;
             fn := fn Demo.brokenTest;
             test_only := test_only Demo.brokenTest;
             runs := runs Demo.brokenTest
                     ++ map (bareRun Demo.digest)
                          (seq 0 (repeatEach (Demo.repeated 2))) |}
          :: rest', grep''))
      (gen_mapM (Demo.visit (Demo.repeated 2) ["A"]) [Demo.browserTest] None).
Proof.
  apply (unresolved_fixtures_are_no_fixtures Demo.renderValue Demo.digest
           Demo.regexpExec Demo.fullTitle Demo.fixturesEnv (Demo.repeated 2) ["A"]
           Demo.brokenTest [Demo.browserTest] None None TypeError);
    reflexivity.
Defined.

(** C3, as stated, fails when a suite that holds no exclusive test is marked
    exclusive itself: with [y] the only exclusive test, suite [A] and its
    test [x] are kept as well. *)
Lemma exclusive_suite_is_kept_whole :
  exclusiveTests Demo.exclusiveSuiteTree = [Demo.test "y" [] true] /\
  allTests (snd (filterOnly Demo.exclusiveSuiteTree))
  = [Demo.test "x" [] false; Demo.test "y" [] true].
Proof. split; vm_compute; reflexivity. Qed.

(** The premises of C3 (as amended) hold of a tree whose one exclusive test
    is nested in an exclusive suite, and of a tree without exclusive
    declarations. *)
Lemma only_filter_keeps_the_exclusive_path_witness :
  (OnlyPath (Demo.test "t" [] true) Demo.nestedTree (snd (filterOnly Demo.nestedTree)) /\
   allTests (snd (filterOnly Demo.nestedTree)) = [Demo.test "t" [] true]) /\
  snd (filterOnly Demo.plainTree) = Demo.plainTree.
Proof.
  split.
  - apply (proj1 only_filter_keeps_the_exclusive_path Demo.nestedTree
             (Demo.test "t" [] true)).
    + reflexivity.
    + unfold exclusiveSuitesHoldExclusiveTest.
      repeat (constructor;
              [intros Honly; vm_compute in Honly;
               first [discriminate Honly|by vm_compute]|]).
      constructor.
  - apply (proj2 only_filter_keeps_the_exclusive_path Demo.plainTree).
    split; [reflexivity|repeat constructor].
Defined.

(** C4 fails on the code for a pattern with the [g] flag: [lastIndex] stays
    at the end of the match in the title of the first test, the search in the
    title of the second starts from there, and the second test is skipped
    although its title matches. *)
Lemma global_flag_skips_a_matching_test :
  Demo.generate [Demo.fooSuite] Demo.grepFooGlobal = Returned Demo.fooGlobalResult /\
  runs <$> allTests Demo.fooGlobalResult = [[bareRun Demo.digest 0]; []] /\
  Demo.regexpExec "foo" false (Demo.fullTitle ["A"; "foo 1"]) 0 = Some 5 /\
  Demo.regexpExec "foo" false (Demo.fullTitle ["A"; "foo 2"]) 0 = Some 5.
Proof. repeat split; vm_compute; reflexivity. Qed.

(** The premises of C10 hold of a test titled [bar] under [/foo/g], and of
    the pass over two tests titled [foo 1] and [foo 2]. *)
Lemma grep_removes_no_declaration_witness :
  Demo.visit Demo.grepFooGlobal ["A"] (Demo.test "bar" [] false) (Some Demo.fooAfterMatch)
  = Returned (Demo.test "bar" [] false, Some Demo.fooAtStart) /\
  (exists grep',
     Demo.visit Demo.grepFooGlobal ["A"] (Demo.test "bar" [] false)
       (Some Demo.fooAfterMatch)
     = Returned (Demo.test "bar" [] false, grep')) /\
  eraseRuns Demo.fooGlobalResult
  = snd (filterOnly (eraseRuns (rootSuite [Demo.fooSuite]))) /\
  (noExclusive (rootSuite [Demo.fooSuite]) ->
   eraseRuns Demo.fooGlobalResult = eraseRuns (rootSuite [Demo.fooSuite])).
Proof.
  pose proof (grep_removes_no_declaration Demo.renderValue Demo.digest
                Demo.regexpSyntax Demo.regexpExec Demo.rerunRegistrations
                Demo.fullTitle) as (Hskipped & Hnomatch & Hroot).
  split; [|split].
  - apply Hskipped. reflexivity.
  - apply Hnomatch.
    + intros from e Hfound.
      do 6 (destruct from as [|from]; [vm_compute in Hfound; discriminate Hfound|]).
      vm_compute in Hfound. discriminate Hfound.
    + intros [e Hfound]. vm_compute in Hfound. discriminate Hfound.
  - apply (Hroot [Demo.fooSuite] Demo.grepFooGlobal). vm_compute. reflexivity.
Defined.

(** C6, as stated, fails on [//i], which is handed to [RegExp] as the
    pattern [//i] with the flag [i] (neither the empty pattern between the
    slashes, nor the whole input without a flag), and on [(], an ill-formed
    pattern on which [RegExp] throws and the pass with it. *)
Lemma grep_parsing_counterexample :
  grepArguments "//i" = ("//i", Some FlagI) /\
  grepArguments "(" = ("(", None) /\
  Demo.generate [] {| grep := Some "("; repeatEach := 1 |} = Thrown SyntaxError.
Proof. repeat split; vm_compute; reflexivity. Qed.

(** The premises of C6 (as amended) hold of [/foo/i] and of [foo]. *)
Lemma grep_pattern_is_parsed_witness :
  grepArguments "/foo/i" = ("foo", Some FlagI) /\
  grepArguments "foo" = ("foo", None).
Proof.
  split.
  - refine (proj1 (grep_pattern_is_parsed Demo.regexpSyntax
                     {| grep := Some "/foo/i"; repeatEach := 1 |} "/foo/i" eq_refl _)
              "foo" FlagI _ _ eq_refl).
    + discriminate.
    + discriminate.
    + reflexivity.
  - refine (proj1 (proj2 (grep_pattern_is_parsed Demo.regexpSyntax
                            {| grep := Some "foo"; repeatEach := 1 |} "foo" eq_refl _))
              _ _).
    + discriminate.
    + intros body flag _ Hinput. discriminate Hinput.
    + reflexivity.
Defined.

(** * Further properties *)

(** ** Order and content of the runs *)

Section Runs.
Context {Value : Type} (renderValue : Value -> string).
Implicit Types (matrix : gmap string (list Value)) (fixtures : list string).
Implicit Types (gens : list (Configuration Value)).

(** X1: the runs of a test are pushed configuration by configuration, in
    the order of the configurations, and for each configuration by rising
    repeat index: the run at place [k * repeatEach + i] is that of the
    configuration at place [k] at repeat index [i]. *)
Theorem runs_are_pushed_in_order hash (configurations : list (Configuration Value))
    n k configuration i :
  configurations !! k = Some configuration ->
  i < n ->
  materializeRuns renderValue hash configurations n !! (k * n + i)
  = Some (newTestRun renderValue hash configuration i).
Proof.
  unfold materializeRuns. revert k.
  induction configurations as [|first rest IH]; intros k Hk Hi; [done|].
  cbn [flat_map]. destruct k as [|k].
  - injection Hk as ->. rewrite lookup_app_l by (rewrite length_map, length_seq; lia).
    change (map ?f ?l) with (f <$> l). rewrite list_lookup_fmap.
    by rewrite lookup_seq_lt.
  - rewrite lookup_app_r by (rewrite length_map, length_seq; lia).
    rewrite length_map, length_seq.
    replace (S k * n + i - n) with (k * n + i) by lia. by apply IH.
Qed.

Lemma flat_map_flat_map {A B C : Type} (f : B -> list C) (g : A -> list B) (l : list A) :
  flat_map f (flat_map g l) = flat_map (fun a => flat_map f (g a)) l.
Proof.
  induction l as [|a l IH]; [reflexivity|].
  cbn [flat_map]. by rewrite flat_map_app, IH.
Qed.

Lemma flat_map_map {A B C : Type} (f : B -> list C) (g : A -> B) (l : list A) :
  flat_map f (map g l) = flat_map (fun a => f (g a)) l.
Proof. induction l as [|a l IH]; [reflexivity|]. cbn. by rewrite IH. Qed.

Lemma map_flat_map {A B C : Type} (f : B -> C) (g : A -> list B) (l : list A) :
  map f (flat_map g l) = flat_map (fun a => map f (g a)) l.
Proof.
  induction l as [|a l IH]; [reflexivity|]. cbn [flat_map]. by rewrite map_app, IH.
Qed.

Lemma combinations_nonempty matrix fixtures :
  Forall (fun domain => domain <> []) (generatorDomains matrix fixtures) ->
  combinations matrix fixtures <> [].
Proof.
  unfold generatorDomains. induction fixtures as [|name fixtures IH]; [done|].
  cbn [combinations omap list_omap].
  destruct (matrix !! name) as [values|]; [|exact IH].
  intros [Hvalues Hrest]%Forall_cons. destruct values as [|value values]; [done|].
  cbn [flat_map]. destruct (combinations matrix fixtures); [by destruct IH|done].
Qed.

(** With partial configurations at hand and no empty domain ahead, the loop
    of lines 57-67 extends each of them by every combination. *)
Lemma expansion_from matrix fixtures gens :
  Forall (fun domain => domain <> []) (generatorDomains matrix fixtures) ->
  gens <> [] ->
  fold_left (expandFixture matrix) fixtures gens
  = flat_map (fun gen => map (app gen) (combinations matrix fixtures)) gens.
Proof.
  unfold generatorDomains. revert gens.
  induction fixtures as [|name fixtures IH]; intros gens Hdomains Hgens.
  - cbn. induction gens as [|gen gens IHgens]; [done|].
    cbn. rewrite app_nil_r. destruct gens; [reflexivity|].
    by rewrite <- IHgens.
  - cbn [fold_left combinations omap list_omap] in *.
    destruct (matrix !! name) as [values|] eqn:Hname.
    + apply Forall_cons in Hdomains as [Hvalues Hdomains].
      assert (expandFixture matrix gens name
              = flat_map (fun gen => map (fun value => gen ++ [(name, value)]) values)
                  gens) as Hstep.
      { unfold expandFixture. rewrite Hname. by destruct gens. }
      rewrite IH; [|done|].
      * rewrite Hstep, flat_map_flat_map. apply flat_map_ext. intros gen.
        rewrite flat_map_map, map_flat_map. apply flat_map_ext. intros value.
        rewrite map_map. apply map_ext. intros combination.
        by rewrite <- app_assoc.
      * rewrite Hstep. destruct gens as [|gen gens]; [done|].
        destruct values as [|value values]; [done|]. done.
    + rewrite expandFixture_not_generator by done. by apply IH.
Qed.

(** X2: when no generator fixture of the list has an empty domain, the
    configurations are the combinations of the values of the generator
    fixtures, each naming the generator fixtures in list order, in the
    order in which the value of an earlier fixture changes slowest. *)
Theorem configurations_are_the_combinations matrix fixtures :
  Forall (fun domain => domain <> []) (generatorDomains matrix fixtures) ->
  generatorConfigurations matrix fixtures = combinations matrix fixtures.
Proof.
  unfold generatorConfigurations, generatorDomains.
  induction fixtures as [|name fixtures IH]; intros Hdomains; [reflexivity|].
  cbn [fold_left combinations omap list_omap] in *.
  destruct (matrix !! name) as [values|] eqn:Hname.
  - apply Forall_cons in Hdomains as [Hvalues Hdomains].
    assert (expandFixture matrix [] name = map (fun value => [(name, value)]) values)
      as Hstep.
    { unfold expandFixture. rewrite Hname. cbn. by rewrite app_nil_r. }
    pose proof (combinations_nonempty matrix fixtures Hdomains) as Hsome.
    rewrite expansion_from; [|done|].
    + rewrite Hstep, flat_map_map.
      destruct values as [|value values]; [done|].
      cbn [flat_map]. destruct (combinations matrix fixtures); [done|]. reflexivity.
    + rewrite Hstep. by destruct values.
  - rewrite expandFixture_not_generator by done. by apply IH.
Qed.

(** X3: whatever the domains, the fixture list splits into a part that is
    empty or ends with a generator fixture of empty domain, and a part
    without empty domain; the configurations are the combinations of the
    latter part alone, and their number the product of its domain sizes. *)
Theorem configurations_after_the_last_empty_domain matrix fixtures :
  exists before after,
    fixtures = before ++ after /\
    (before = [] \/
     exists earlier name, before = earlier ++ [name] /\ matrix !! name = Some []) /\
    Forall (fun domain => domain <> []) (generatorDomains matrix after) /\
    generatorConfigurations matrix fixtures = combinations matrix after /\
    length (generatorConfigurations matrix fixtures) = domainProduct matrix after.
Proof.
  assert (exists before after,
            fixtures = before ++ after /\
            (before = [] \/
             exists earlier name, before = earlier ++ [name] /\
                                  matrix !! name = Some []) /\
            Forall (fun domain => domain <> []) (generatorDomains matrix after))
    as (before & after & -> & Hbefore & Hafter).
  { induction fixtures as [|name fixtures IH] using rev_ind.
    - exists [], []. split; [reflexivity|]. split; [by left|]. constructor.
    - destruct (matrix !! name) as [[|value values]|] eqn:Hname.
      + exists (fixtures ++ [name]), []. rewrite app_nil_r.
        split; [reflexivity|]. split; [right; eauto|]. constructor.
      + destruct IH as (before & after & -> & Hbefore & Hafter).
        exists before, (after ++ [name]). rewrite app_assoc.
        split; [reflexivity|]. split; [exact Hbefore|].
        unfold generatorDomains. rewrite omap_app. apply Forall_app.
        split; [exact Hafter|]. cbn. rewrite Hname. by constructor.
      + destruct IH as (before & after & -> & Hbefore & Hafter).
        exists before, (after ++ [name]). rewrite app_assoc.
        split; [reflexivity|]. split; [exact Hbefore|].
        unfold generatorDomains. rewrite omap_app. apply Forall_app.
        split; [exact Hafter|]. cbn. rewrite Hname. constructor. }
  exists before, after. split; [reflexivity|]. split; [exact Hbefore|].
  split; [exact Hafter|].
  assert (generatorConfigurations matrix (before ++ after)
          = generatorConfigurations matrix after) as Hrestart.
  { destruct Hbefore as [->|(earlier & name & -> & Hname)]; [reflexivity|].
    rewrite <- app_assoc. cbn [app].
    by apply generatorConfigurations_restart. }
  rewrite Hrestart. split.
  - by apply configurations_are_the_combinations.
  - by apply generatorConfigurations_length.
Qed.

End Runs.

(** ** The only-filter on any tree *)

Section OnlyFilter.
Context {Value Callback : Type}.

Implicit Types (suite child : SuiteDeclaration Value Callback).
Implicit Types (suites : list (SuiteDeclaration Value Callback)).
Implicit Types (test : TestDeclaration Value Callback).
Implicit Types (tests : list (TestDeclaration Value Callback)).

Lemma noExclusive_of_children title file only suites tests :
  Forall (fun child => noExclusive child /\ suite_only child = false) suites ->
  filter (fun test => test_only test = true) tests = [] ->
  noExclusive (Suite title file only suites tests).
Proof.
  intros Hsuites Htests. unfold noExclusive at 1.
  rewrite exclusiveTests_unfold, nestedSuites_children, Htests, app_nil_r.
  induction Hsuites as [|child suites [[Hnone Hbelow] Honly] _ [IHtests IHsuites]].
  - split; [reflexivity|constructor].
  - rewrite exclusiveTests_flat_map_cons, Hnone, IHtests.
    split; [reflexivity|]. by constructor.
Qed.

Lemma keepExclusive_None child :
  keepExclusive child = None ->
  fst (filterOnly child) = false /\ suite_only child = false.
Proof.
  unfold keepExclusive. destruct (filterOnly child) as [[] child'];
    destruct (suite_only child); by intros [=].
Qed.

Lemma keepExclusive_Some child child' :
  keepExclusive child = Some child' ->
  child' = snd (filterOnly child) /\
  (fst (filterOnly child) = true \/ suite_only child = true).
Proof.
  unfold keepExclusive. destruct (filterOnly child) as [[] kept];
    destruct (suite_only child); intros [=]; subst; auto.
Qed.

Lemma filterOnly_false suite :
  fst (filterOnly suite) = false -> noExclusive suite.
Proof.
  induction suite as [title file only suites tests IH] using suite_induction.
  rewrite filterOnly_unfold. cbn zeta.
  destruct (omap keepExclusive suites) as [|kept rest] eqn:Hsuites;
    [|by intros [=]].
  destruct (filter _ tests) as [|test rest] eqn:Htests; [|by intros [=]].
  intros _. apply noExclusive_of_children; [|exact Htests].
  clear Htests. induction IH as [|child suites IHchild _ IHsuites]; [constructor|].
  cbn [omap list_omap] in Hsuites.
  destruct (keepExclusive child) as [kept|] eqn:Hchild; [discriminate|].
  apply keepExclusive_None in Hchild as [Hflag Honly].
  constructor; [|by apply IHsuites]. split; [by apply IHchild|exact Honly].
Qed.

(** X4: [filterOnly] answers [false] exactly when no test of the tree and no
    suite below its root is marked exclusive, and [true] otherwise. *)
Theorem only_filter_flag suite :
  (fst (filterOnly suite) = false <-> noExclusive suite) /\
  (fst (filterOnly suite) = true <-> ~ noExclusive suite).
Proof.
  assert (fst (filterOnly suite) = false <-> noExclusive suite) as Hfalse.
  { split; [apply filterOnly_false|].
    intros Hnone. by rewrite filterOnly_noExclusive. }
  split; [exact Hfalse|]. rewrite <- Hfalse.
  destruct (fst (filterOnly suite)); split; congruence.
Qed.

Lemma filterOnly_keeps_flags suite :
  suite_only (snd (filterOnly suite)) = suite_only suite /\
  suite_title (snd (filterOnly suite)) = suite_title suite /\
  file (snd (filterOnly suite)) = file suite.
Proof.
  destruct suite as [title file only suites tests]. rewrite filterOnly_unfold.
  cbn zeta. by destruct (negb _ || negb _).
Qed.

Lemma onlySuites_exclusiveTests suites :
  Forall (fun child => exclusiveTests (snd (filterOnly child)) = exclusiveTests child)
         suites ->
  filter (fun test => test_only test = true)
         (flat_map allTests (omap keepExclusive suites))
  = filter (fun test => test_only test = true) (flat_map allTests suites).
Proof.
  induction 1 as [|child suites Hchild _ IH]; [reflexivity|].
  cbn [omap list_omap]. rewrite exclusiveTests_flat_map_cons.
  destruct (keepExclusive child) as [kept|] eqn:Hkeep.
  - apply keepExclusive_Some in Hkeep as [-> _].
    by rewrite exclusiveTests_flat_map_cons, Hchild, IH.
  - apply keepExclusive_None in Hkeep as [Hflag _].
    apply filterOnly_false in Hflag as [-> _]. exact IH.
Qed.

Lemma onlySuites_sublist suites :
  Forall (fun child => allTests (snd (filterOnly child)) `sublist_of` allTests child)
         suites ->
  flat_map allTests (omap keepExclusive suites) `sublist_of` flat_map allTests suites.
Proof.
  induction 1 as [|child suites Hchild _ IH]; [reflexivity|].
  cbn [omap list_omap flat_map].
  destruct (keepExclusive child) as [kept|] eqn:Hkeep.
  - apply keepExclusive_Some in Hkeep as [-> _]. cbn [flat_map].
    by apply sublist_app.
  - by apply sublist_inserts_l.
Qed.

Lemma filter_exclusive_twice tests :
  filter (fun test => test_only test = true)
         (filter (fun test => test_only test = true) tests)
  = filter (fun test => test_only test = true) tests.
Proof. by apply list_filter_filter_l. Qed.

Lemma filterOnly_exclusiveTests suite :
  exclusiveTests (snd (filterOnly suite)) = exclusiveTests suite.
Proof.
  induction suite as [title file only suites tests IH] using suite_induction.
  rewrite filterOnly_unfold. cbn zeta.
  destruct (negb _ || negb _); [|done]. cbn [snd].
  rewrite !exclusiveTests_unfold, filter_exclusive_twice. f_equal.
  by apply onlySuites_exclusiveTests.
Qed.

Lemma filterOnly_sublist suite :
  allTests (snd (filterOnly suite)) `sublist_of` allTests suite.
Proof.
  induction suite as [title file only suites tests IH] using suite_induction.
  rewrite filterOnly_unfold. cbn zeta.
  destruct (negb _ || negb _); [|done]. cbn [snd allTests].
  apply sublist_app; [|apply sublist_filter]. by apply onlySuites_sublist.
Qed.

(** X5: [filterOnly] drops no exclusive test, whatever the tree: the
    exclusive tests of the tree it leaves are those of the tree it was
    given, in the same order; and it adds no test: the tests it leaves are
    tests of the tree it was given, in the same order. *)
Theorem only_filter_keeps_exclusive_tests suite :
  exclusiveTests (snd (filterOnly suite)) = exclusiveTests suite /\
  allTests (snd (filterOnly suite)) `sublist_of` allTests suite.
Proof. split; [apply filterOnly_exclusiveTests|apply filterOnly_sublist]. Qed.

(** X6: [filterOnly] on a tree it has filtered already gives the same answer
    and changes nothing more. *)
Theorem only_filter_is_idempotent suite :
  filterOnly (snd (filterOnly suite)) = filterOnly suite.
Proof.
  induction suite as [title file only suites tests IH] using suite_induction.
  rewrite (filterOnly_unfold title file only suites tests). cbn zeta.
  destruct (negb _ || negb _) eqn:Hflag; cbn [snd].
  - rewrite filterOnly_unfold, filter_exclusive_twice. cbn zeta.
    assert (omap keepExclusive (omap keepExclusive suites)
            = omap keepExclusive suites) as ->.
    { clear Hflag. induction IH as [|child suites IHchild _ IHsuites]; [reflexivity|].
      cbn [omap list_omap].
      destruct (keepExclusive child) as [kept|] eqn:Hkeep; [|exact IHsuites].
      cbn [omap list_omap]. rewrite IHsuites.
      assert (keepExclusive kept = Some kept) as ->; [|reflexivity].
      pose proof Hkeep as [-> Hwhy]%keepExclusive_Some.
      unfold keepExclusive. rewrite IHchild.
      destruct (filterOnly_keeps_flags child) as (-> & _ & _).
      unfold keepExclusive in Hkeep.
      destruct (filterOnly child) as [flag kept]. cbn [snd] in *.
      by destruct (flag || suite_only child). }
    by rewrite Hflag.
  - rewrite filterOnly_unfold. cbn zeta. by rewrite Hflag.
Qed.

End OnlyFilter.

(** ** The worker hash *)

Section WorkerHash.
Context (sha1_hex : string -> string).

Lemma append_nil_r (a : string) : a +:+ "" = a.
Proof.
  induction a as [|x a IH]; [reflexivity|].
  change (String x (a +:+ "") = String x a). by rewrite IH.
Qed.

Lemma fed_locations (locations : list string) (hash : Hash.t) :
  fold_left Hash.update locations hash = hash +:+ foldr String.append "" locations.
Proof.
  revert hash. induction locations as [|first rest IH]; intros hash.
  - cbn. by rewrite append_nil_r.
  - cbn [fold_left foldr]. rewrite IH. unfold Hash.update. apply append_assoc.
Qed.

(** X7: the worker hash sees the locations of the worker-scoped
    registrations end to end, not one by one: two fixture lists, every name
    registered, whose locations make the same text when joined without a
    separator get the same hash, however that text is cut into locations. *)
Theorem worker_hash_of_joined_locations
    (registrations1 registrations2 : gmap string Registration)
    (fixtures1 fixtures2 : list string) :
  allRegistered registrations1 fixtures1 ->
  allRegistered registrations2 fixtures2 ->
  foldr String.append "" (workerLocations registrations1 fixtures1)
  = foldr String.append "" (workerLocations registrations2 fixtures2) ->
  computeWorkerRegistrationHash sha1_hex registrations1 fixtures1
  = computeWorkerRegistrationHash sha1_hex registrations2 fixtures2.
Proof.
  intros Hreg1 Hreg2 Hjoined.
  rewrite !computeWorkerRegistrationHash_registered by done.
  by rewrite !fed_locations, Hjoined.
Qed.

End WorkerHash.

(** ** The loop over the tests *)

Section Loop.
Context {Value : Type} (renderValue : Value -> string) {Callback : Type}.
Context (sha1_hex : string -> string).
Context (regexpSyntax : string -> bool).
Context (regexpExec : string -> bool -> string -> nat -> option nat).
Context (rerunRegistrations : string -> Fixtures Value Callback).
Context (fullTitle : list string -> string).

Implicit Types (env : Fixtures Value Callback) (config : RunnerConfig).
Implicit Types (test : TestDeclaration Value Callback) (grep : option RegExp).
Implicit Types (suite : SuiteDeclaration Value Callback).
Implicit Types (suites : list (SuiteDeclaration Value Callback)).

Local Abbreviation visit := (visitTest renderValue sha1_hex regexpExec fullTitle).
Local Abbreviation walk := (visitAllTests renderValue sha1_hex regexpExec fullTitle).
Local Abbreviation loop :=
  (visitSuites renderValue sha1_hex regexpExec rerunRegistrations fullTitle).
Local Abbreviation generate :=
  (generateTests renderValue sha1_hex regexpSyntax regexpExec rerunRegistrations fullTitle).

(** *** Visits of a list *)

Lemma gen_mapM_Forall2 {A B : Type} (f : A -> Gen B) (Q : A -> B -> Prop)
    (l : list A) (l' : list B) grep grep' :
  Forall (fun a => forall grep b grep', f a grep = Returned (b, grep') -> Q a b) l ->
  gen_mapM f l grep = Returned (l', grep') ->
  Forall2 Q l l'.
Proof.
  intros Hl. revert l' grep grep'.
  induction Hl as [|a l Ha _ IH]; intros l' grep grep' Hvisit.
  - cbn in Hvisit. injection Hvisit as <- _. constructor.
  - cbn [gen_mapM] in Hvisit. unfold gen_bind at 1 in Hvisit.
    destruct (f a grep) as [[b grep1]|e] eqn:Hfa; [|discriminate].
    cbn in Hvisit. unfold gen_bind at 1 in Hvisit.
    destruct (gen_mapM f l grep1) as [[rest grep2]|e] eqn:Hrest; [|discriminate].
    cbn in Hvisit. injection Hvisit as <- _. constructor; eauto.
Qed.

Lemma gen_mapM_fixed {A B : Type} (f : A -> Gen B) (Q : A -> B -> Prop)
    (l : list A) (l' : list B) grep grep' :
  Forall (fun a => forall b grep', f a grep = Returned (b, grep') ->
                                   grep' = grep /\ Q a b) l ->
  gen_mapM f l grep = Returned (l', grep') ->
  grep' = grep /\ Forall2 Q l l'.
Proof.
  intros Hl. revert l' grep'.
  induction Hl as [|a l Ha _ IH]; intros l' grep' Hvisit.
  - cbn in Hvisit. injection Hvisit as <- <-. split; [reflexivity|constructor].
  - cbn [gen_mapM] in Hvisit. unfold gen_bind at 1 in Hvisit.
    destruct (f a grep) as [[b grep1]|e] eqn:Hfa; [|discriminate].
    destruct (Ha b grep1 eq_refl) as [-> Hb].
    cbn in Hvisit. unfold gen_bind at 1 in Hvisit.
    destruct (gen_mapM f l grep) as [[rest grep2]|e] eqn:Hrest; [|discriminate].
    cbn in Hvisit. injection Hvisit as <- <-.
    destruct (IH rest grep2 eq_refl) as [-> Hl']. split; [reflexivity|by constructor].
Qed.

Lemma Forall2_flat_map {A B C D : Type} (Q : C -> D -> Prop)
    (f : A -> list C) (g : B -> list D) (l : list A) (l' : list B) :
  Forall2 (fun a b => Forall2 Q (f a) (g b)) l l' ->
  Forall2 Q (flat_map f l) (flat_map g l').
Proof.
  induction 1 as [|a b l l' Hab _ IH]; [constructor|].
  cbn [flat_map]. by apply Forall2_app.
Qed.

(** *** Run lists only grow *)

Lemma visitTest_pushes env config path test grep test' grep' :
  visit env config path test grep = Returned (test', grep') ->
  exists pushed, test' = pushRuns test pushed.
Proof.
  unfold visitTest. destruct (grepAccepts _ _ _) as [[] grep1].
  - unfold generateRuns. destruct (computeWorkerRegistrationHash _ _ _); [|discriminate].
    cbn. intros [= <- _]. eauto.
  - intros [= <- _]. exists []. unfold pushRuns. rewrite app_nil_r. by destruct test.
Qed.

Lemma visitAllTests_pushes env config path suite grep suite' grep' :
  walk env config path suite grep = Returned (suite', grep') ->
  Forall2 (fun test test' => exists pushed, test' = pushRuns test pushed)
          (allTests suite) (allTests suite').
Proof.
  revert path grep suite' grep'.
  induction suite as [title file only suites tests IH] using suite_induction.
  intros path grep suite' grep'. cbn [visitAllTests]. unfold gen_bind at 1.
  destruct (gen_mapM _ suites grep) as [[suites' grep1]|e] eqn:Hsuites; [|discriminate].
  cbn. unfold gen_bind at 1.
  destruct (gen_mapM _ tests grep1) as [[tests' grep2]|e] eqn:Htests; [|discriminate].
  cbn. intros [= <- _]. cbn [allTests]. apply Forall2_app.
  - apply Forall2_flat_map. eapply gen_mapM_Forall2; [|exact Hsuites].
    eapply Forall_impl; [exact IH|]. cbn. eauto.
  - eapply gen_mapM_Forall2; [|exact Htests].
    apply Forall_forall. intros test _ grep0 test' grep0'. apply visitTest_pushes.
Qed.

Lemma Forall2_right_from_left {A B : Type} (Q : A -> B -> Prop) (l : list A) (l' : list B) :
  Forall2 Q l l' -> Forall (fun b => exists a, a ∈ l /\ Q a b) l'.
Proof.
  induction 1 as [|a b l l' Hab _ IH]; constructor.
  - exists a. split; [left|exact Hab].
  - eapply Forall_impl; [exact IH|]. intros b' (a' & Hin & Hq). exists a'.
    split; [by right|exact Hq].
Qed.

Lemma Forall_of_sublist {A : Type} (P : A -> Prop) (l l' : list A) :
  l `sublist_of` l' -> Forall P l' -> Forall P l.
Proof.
  induction 1 as [|a l l' _ IH|a l l' _ IH]; intros Hl'.
  - constructor.
  - apply Forall_cons in Hl' as [Ha Hl']. constructor; auto.
  - apply Forall_cons in Hl' as [_ Hl']. auto.
Qed.

Lemma visitSuites_pushes suites config grep suites' grep' :
  loop suites config grep = Returned (suites', grep') ->
  Forall2 (fun test test' => exists pushed, test' = pushRuns test pushed)
          (allTests (rootSuite suites)) (allTests (rootSuite suites')).
Proof.
  intros Hloop. unfold rootSuite. cbn [allTests]. rewrite !app_nil_r.
  apply Forall2_flat_map. eapply gen_mapM_Forall2; [|exact Hloop].
  apply Forall_forall. intros suite _ grep0 suite' grep0'.
  apply visitAllTests_pushes.
Qed.

(** X8: [generateTests] removes no run and changes no declaration: every
    test of the tree it returns is a test of the suites it was given, its
    title, callback and exclusivity mark as they were, with new runs (or
    none) after the runs its list held. *)
Theorem run_lists_only_grow suites config root :
  generate suites config = Returned root ->
  Forall (fun test' =>
            exists test,
              test ∈ allTests (rootSuite suites) /\
              test_title test' = test_title test /\
              fn test' = fn test /\
              test_only test' = test_only test /\
              exists pushed, runs test' = runs test ++ pushed)
         (allTests root).
Proof.
  unfold generateTests.
  destruct (parseGrep regexpSyntax config) as [grep|e]; [|discriminate].
  cbn [outcome_bind].
  destruct (loop suites config grep) as [[suites' grep']|e] eqn:Hloop; [|discriminate].
  cbn [outcome_bind]. intros Hreturned.
  assert (root = snd (filterOnly (rootSuite suites'))) as -> by congruence.
  eapply Forall_of_sublist; [apply filterOnly_sublist|].
  apply visitSuites_pushes, Forall2_right_from_left in Hloop.
  eapply Forall_impl; [exact Hloop|]. cbn. intros test' (test & Hin & pushed & ->).
  exists test. unfold pushRuns. cbn [test_title fn test_only runs]. eauto 10.
Qed.

(** *** A pattern without the g flag *)

Lemma grepAccepts_notGlobal grep title :
  notGlobal grep ->
  exists accepted,
    grepAccepts regexpExec grep title = (accepted, grep) /\
    (accepted = true <-> patternAdmits regexpExec grep title).
Proof.
  destruct grep as [r|]; cbn [notGlobal patternAdmits grepAccepts].
  - intros Hglobal. unfold RegExp_test, titleMatches. rewrite Hglobal.
    cbn [Nat.ltb Nat.leb].
    destruct (regexpExec _ _ _ 0) as [e|].
    + exists true. split; [reflexivity|]. split; [eauto|done].
    + exists false. split; [reflexivity|]. split; [done|]. by intros [? [=]].
  - intros _. by exists true.
Qed.

Lemma visitTest_notGlobal env config path test grep test' grep' :
  notGlobal grep ->
  visit env config path test grep = Returned (test', grep') ->
  grep' = grep /\
  (patternAdmits regexpExec grep (fullTitle (path ++ [test_title test])) /\
   generateRuns renderValue sha1_hex env config test = Returned test' \/
   ~ patternAdmits regexpExec grep (fullTitle (path ++ [test_title test])) /\
   test' = test).
Proof.
  intros Hglobal. unfold visitTest.
  destruct (grepAccepts_notGlobal grep (fullTitle (path ++ [test_title test])) Hglobal)
    as (accepted & -> & Haccepted).
  destruct accepted.
  - destruct (generateRuns _ _ _ _ _) as [pushed|e]; [|discriminate].
    cbn. intros [= <- <-]. split; [reflexivity|]. left. split; [|reflexivity].
    by apply Haccepted.
  - intros [= <- <-]. split; [reflexivity|]. right. split; [|reflexivity].
    intros Hadmits. by apply Haccepted in Hadmits.
Qed.

(** X9: without a pattern, or with a pattern that has no [g] flag, the walk
    over a suite treats each test by its own title: a test in whose full
    title the pattern occurs gets the runs lines 43-83 generate for it, any
    other test is left as it is; and [grep] is left as it was. *)
Theorem tests_are_accepted_by_their_own_title env config path suite grep suite' grep' :
  notGlobal grep ->
  walk env config path suite grep = Returned (suite', grep') ->
  grep' = grep /\
  Forall2 (fun '(title, test) test' =>
             patternAdmits regexpExec grep title /\
             generateRuns renderValue sha1_hex env config test = Returned test' \/
             ~ patternAdmits regexpExec grep title /\ test' = test)
          (titledTests fullTitle path suite) (allTests suite').
Proof.
  intros Hglobal. revert path suite' grep'.
  induction suite as [title file only suites tests IH] using suite_induction.
  intros path suite' grep'. cbn [visitAllTests]. unfold gen_bind at 1.
  destruct (gen_mapM _ suites grep) as [[suites' grep1]|e] eqn:Hsuites; [|discriminate].
  eapply (gen_mapM_fixed _ (fun child child' =>
            Forall2 _ (titledTests fullTitle (path ++ [title]) child) (allTests child')))
    in Hsuites as [-> Hsuites].
  2:{ eapply Forall_impl; [exact IH|]. cbn. intros child IHchild child' grep0.
      apply IHchild. }
  cbn. unfold gen_bind at 1.
  destruct (gen_mapM _ tests grep) as [[tests' grep2]|e] eqn:Htests; [|discriminate].
  eapply (gen_mapM_fixed _ (fun test test' =>
            patternAdmits regexpExec grep (fullTitle ((path ++ [title]) ++ [test_title test])) /\
            generateRuns renderValue sha1_hex env config test = Returned test' \/
            ~ patternAdmits regexpExec grep (fullTitle ((path ++ [title]) ++ [test_title test])) /\
            test' = test))
    in Htests as [-> Htests].
  2:{ apply Forall_forall. intros test _ test' grep0. by apply visitTest_notGlobal. }
  cbn. intros [= <- <-]. split; [reflexivity|].
  cbn [titledTests allTests]. apply Forall2_app.
  - by apply Forall2_flat_map.
  - change (map ?f ?l) with (f <$> l). by apply Forall2_fmap_l.
Qed.

(** *** No repetition *)

Lemma materializeRuns_none hash (configurations : list (Configuration Value)) :
  materializeRuns renderValue hash configurations 0 = [].
Proof.
  unfold materializeRuns. induction configurations as [|first rest IH]; [reflexivity|].
  exact IH.
Qed.

Lemma pushRuns_none test : pushRuns test [] = test.
Proof. unfold pushRuns. rewrite app_nil_r. by destruct test. Qed.

Lemma visitTest_unrepeated env config path test grep test' grep' :
  repeatEach config = 0 ->
  visit env config path test grep = Returned (test', grep') -> test = test'.
Proof.
  intros Hzero. unfold visitTest. destruct (grepAccepts _ _ _) as [[] grep1].
  - unfold generateRuns. destruct (computeWorkerRegistrationHash _ _ _); [|discriminate].
    cbn. rewrite Hzero, materializeRuns_none, pushRuns_none. by intros [= <- _].
  - by intros [= <- _].
Qed.

Lemma visitAllTests_unrepeated env config path suite grep suite' grep' :
  repeatEach config = 0 ->
  walk env config path suite grep = Returned (suite', grep') -> suite = suite'.
Proof.
  intros Hzero. revert path grep suite' grep'.
  induction suite as [title file only suites tests IH] using suite_induction.
  intros path grep suite' grep'. cbn [visitAllTests]. unfold gen_bind at 1.
  destruct (gen_mapM _ suites grep) as [[suites' grep1]|e] eqn:Hsuites; [|discriminate].
  cbn. unfold gen_bind at 1.
  destruct (gen_mapM _ tests grep1) as [[tests' grep2]|e] eqn:Htests; [|discriminate].
  cbn. intros [= <- _]. f_equal.
  - apply list_eq_Forall2. eapply gen_mapM_Forall2; [|exact Hsuites].
    eapply Forall_impl; [exact IH|]. cbn. eauto.
  - apply list_eq_Forall2. eapply gen_mapM_Forall2; [|exact Htests].
    apply Forall_forall. intros test _ grep0 test' grep0'.
    by apply visitTest_unrepeated.
Qed.

(** X11: with [repeatEach] 0 no run is pushed: a pass that returns leaves
    every run list as it was, and returns the suites it was given under a
    new root, filtered by [filterOnly]. *)
Theorem no_repetition_no_run suites config root :
  repeatEach config = 0 ->
  generate suites config = Returned root ->
  root = snd (filterOnly (rootSuite suites)).
Proof.
  intros Hzero. unfold generateTests.
  destruct (parseGrep regexpSyntax config) as [grep|e]; [|discriminate].
  cbn [outcome_bind].
  destruct (loop suites config grep) as [[suites' grep']|e] eqn:Hloop; [|discriminate].
  cbn [outcome_bind]. intros Hreturned.
  assert (suites = suites') as <-; [|congruence].
  apply list_eq_Forall2. eapply gen_mapM_Forall2; [|exact Hloop].
  apply Forall_forall. intros suite _ grep0 suite' grep0'.
  by apply visitAllTests_unrepeated.
Qed.

End Loop.

(** ** The execution tree *)

Section ExecutionTree.
Context {Callback : Type}.
Context (regexpExec : string -> bool -> string -> nat -> option nat).
Context (fullTitle : list string -> string).

Implicit Types (suite child : DeclaredSuite.t Callback) (grep : option RegExp).
Implicit Types (tests : gset nat) (path : list string).
Implicit Types (entries : list (DeclaredSuite.t Callback + DeclaredTest.t Callback)).

Local Abbreviation create := (createSuiteRun regexpExec fullTitle).
Local Abbreviation createEntry := (createTestEntry regexpExec fullTitle).
Local Abbreviation declared := (declaredTests fullTitle).

(** Induction on a suite declaration, with the property at hand for the
    suites among its entries. *)
Lemma declared_suite_induction (P : DeclaredSuite.t Callback -> Prop) :
  (forall title location file ordinal only skipped entries,
     Forall (fun entry => match entry with inl child => P child | inr _ => True end)
            entries ->
     P (DeclaredSuite.Build title location file ordinal only skipped entries)) ->
  forall suite, P suite.
Proof.
  intros Hsuite. fix IH 1. intros [title location file ordinal only skipped entries].
  apply Hsuite. induction entries as [|[child|test] entries IHentries]; constructor.
  - apply IH.
  - exact IHentries.
  - exact I.
  - exact IHentries.
Qed.

Lemma createSuiteRun_unfold tests path title location file ordinal only skipped
    entries grep :
  create tests path
    (DeclaredSuite.Build title location file ordinal only skipped entries) grep
  = let (added, grep') :=
      scanEntries (entryBody regexpExec fullTitle tests (path ++ [title])) entries grep in
    (CreatedSuite.Build title location file ordinal only skipped added, grep').
Proof. reflexivity. Qed.

Lemma scanEntries_cons {A B} (body : A -> Scan (option B)) entry rest grep :
  scanEntries body (entry :: rest) grep
  = let (addition, grep1) := body entry grep in
    let (additions, grep2) := scanEntries body rest grep1 in
    (match addition with Some b => b :: additions | None => additions end, grep2).
Proof. reflexivity. Qed.

Lemma createTestEntry_cases tests path (test : DeclaredTest.t Callback) grep :
  (DeclaredTest.ref test ∉ tests) /\ createEntry tests path test grep = (None, grep) \/
  (DeclaredTest.ref test ∈ tests) /\
  exists accepted grep1,
    grepAccepts regexpExec grep (fullTitle (path ++ [DeclaredTest.title test]))
    = (accepted, grep1) /\
    createEntry tests path test grep
    = (if accepted then Some (createTestRun test) else None, grep1).
Proof.
  unfold createTestEntry. case_bool_decide as Hin; cbn [negb].
  - right. split; [exact Hin|].
    destruct (grepAccepts _ _ _) as [accepted grep1]. exists accepted, grep1.
    by destruct accepted.
  - by left.
Qed.

(** X12: [createSuiteRun] mirrors every suite declaration, whatever the set
    of tests and the pattern: without its tests, the suite it returns is
    the declaration without its tests, nested suites in the order of the
    entries, a suite none of whose tests is kept included, title, location,
    file, ordinal and the two marks copied. *)
Theorem created_suites_mirror_the_declarations tests path suite grep :
  withoutTests (fst (create tests path suite grep)) = bareSuite suite.
Proof.
  revert path grep.
  induction suite as [title location file ordinal only skipped entries IH]
    using declared_suite_induction.
  intros path grep. rewrite createSuiteRun_unfold.
  destruct (scanEntries _ entries grep) as [added grep'] eqn:Hscan.
  cbn [fst withoutTests bareSuite]. f_equal.
  revert grep added grep' Hscan.
  induction IH as [|entry entries Hentry _ IHentries]; intros grep added grep' Hscan.
  - cbn in Hscan. by injection Hscan as <- _.
  - rewrite scanEntries_cons in Hscan.
    destruct (entryBody regexpExec fullTitle tests (path ++ [title]) entry grep)
      as [addition grep1] eqn:Hbody.
    destruct (scanEntries _ entries grep1) as [additions grep2] eqn:Hrest.
    injection Hscan as <- _. specialize (IHentries _ _ _ Hrest).
    destruct entry as [child|test]; cbn [entryBody] in Hbody.
    + specialize (Hentry (path ++ [title]) grep).
      destruct (create tests (path ++ [title]) child grep) as [created grep0].
      injection Hbody as <- _. cbn [omap list_omap fst] in *.
      by rewrite Hentry, IHentries.
    + destruct (createEntry tests (path ++ [title]) test grep) as [[created|] grep0];
        injection Hbody as <- _; cbn [omap list_omap option_map]; exact IHentries.
Qed.

(** X13: the tests [createSuiteRun] creates are copies of test declarations
    of the set, in the order of the declarations, none twice: whatever the
    pattern, they make a sublist of the copies of the declared tests that
    are in the set. *)
Theorem created_tests_are_in_the_set tests path suite grep :
  sublist (createdTests (fst (create tests path suite grep)))
          (map (fun entry => createTestRun (snd entry))
               (List.filter (selected regexpExec tests None) (declared path suite))).
Proof.
  revert path grep.
  induction suite as [title location file ordinal only skipped entries IH]
    using declared_suite_induction.
  intros path grep. rewrite createSuiteRun_unfold.
  destruct (scanEntries _ entries grep) as [added grep'] eqn:Hscan.
  cbn [fst createdTests declaredTests].
  revert grep added grep' Hscan.
  induction IH as [|entry entries Hentry _ IHentries]; intros grep added grep' Hscan.
  - cbn in Hscan. by injection Hscan as <- _.
  - rewrite scanEntries_cons in Hscan.
    destruct (entryBody regexpExec fullTitle tests (path ++ [title]) entry grep)
      as [addition grep1] eqn:Hbody.
    destruct (scanEntries _ entries grep1) as [additions grep2] eqn:Hrest.
    injection Hscan as <- _. specialize (IHentries _ _ _ Hrest).
    cbn [flat_map]. rewrite List.filter_app, map_app.
    destruct entry as [child|test]; cbn [entryBody] in Hbody.
    + specialize (Hentry (path ++ [title]) grep).
      destruct (create tests (path ++ [title]) child grep) as [created grep0].
      injection Hbody as <- _. cbn [flat_map fst] in *. by apply sublist_app.
    + destruct (createTestEntry_cases tests (path ++ [title]) test grep)
        as [[Hout Hcreate]|(Hin & accepted & grep0 & _ & Hcreate)];
        rewrite Hcreate in Hbody; injection Hbody as <- _.
      * cbn [option_map]. by apply sublist_inserts_l.
      * cbn [List.filter]. unfold selected. cbn [snd fst admits].
        rewrite bool_decide_eq_true_2 by done. cbn [andb map app].
        destruct accepted; cbn [option_map flat_map app].
        -- by apply sublist_skip.
        -- by apply sublist_cons.
Qed.

Lemma admits_patternAdmits grep title :
  admits regexpExec grep title = true <-> patternAdmits regexpExec grep title.
Proof.
  destruct grep as [r|]; cbn [admits patternAdmits]; [|done].
  unfold titleMatches. apply bool_decide_eq_true.
Qed.

(** X14: without a pattern, or with a pattern that has no [g] flag,
    [createSuiteRun] creates exactly the copies of the declared tests that
    are in the set and in whose full title the pattern occurs, in the order
    of the declarations, and leaves [grep] as it was. *)
Theorem created_tests_without_global_flag tests path suite grep :
  notGlobal grep ->
  snd (create tests path suite grep) = grep /\
  createdTests (fst (create tests path suite grep))
  = map (fun entry => createTestRun (snd entry))
        (List.filter (selected regexpExec tests grep) (declared path suite)).
Proof.
  intros Hglobal. revert path.
  induction suite as [title location file ordinal only skipped entries IH]
    using declared_suite_induction.
  intros path. rewrite createSuiteRun_unfold.
  destruct (scanEntries _ entries grep) as [added grep'] eqn:Hscan.
  cbn [fst snd createdTests declaredTests].
  revert added grep' Hscan.
  induction IH as [|entry entries Hentry _ IHentries]; intros added grep' Hscan.
  - cbn in Hscan. by injection Hscan as <- <-.
  - rewrite scanEntries_cons in Hscan.
    destruct (entryBody regexpExec fullTitle tests (path ++ [title]) entry grep)
      as [addition grep1] eqn:Hbody.
    assert (grep1 = grep /\
            match addition with
            | Some (inl created) => createdTests created
            | Some (inr test) => [test]
            | None => []
            end
            = map (fun entry => createTestRun (snd entry))
                (List.filter (selected regexpExec tests grep)
                   match entry with
                   | inl child => declared (path ++ [title]) child
                   | inr test =>
                       [(fullTitle ((path ++ [title]) ++ [DeclaredTest.title test]),
                         test)]
                   end)) as [-> Haddition].
    { destruct entry as [child|test]; cbn [entryBody] in Hbody.
      - destruct (Hentry (path ++ [title])) as [Hgrep Htests].
        destruct (create tests (path ++ [title]) child grep) as [created grep0].
        injection Hbody as <- <-. by split.
      - destruct (createTestEntry_cases tests (path ++ [title]) test grep)
          as [[Hout Hcreate]|(Hin & accepted & grep0 & Haccepts & Hcreate)];
          rewrite Hcreate in Hbody; injection Hbody as <- <-.
        + split; [reflexivity|]. cbn [List.filter]. unfold selected. cbn [snd fst].
          by rewrite bool_decide_eq_false_2.
        + destruct (grepAccepts_notGlobal regexpExec grep
                      (fullTitle ((path ++ [title]) ++ [DeclaredTest.title test]))
                      Hglobal) as (accepted' & Haccepts' & Hadmits).
          rewrite Haccepts in Haccepts'. injection Haccepts' as -> ->.
          split; [reflexivity|]. cbn [List.filter]. unfold selected. cbn [snd fst].
          rewrite bool_decide_eq_true_2 by done. cbn [andb].
          rewrite <- admits_patternAdmits in Hadmits.
          destruct accepted'.
          * by rewrite (proj1 Hadmits).
          * destruct (admits _ _ _); [by destruct Hadmits as [_ Habsurd];
                                      discriminate Habsurd|reflexivity]. }
    destruct (scanEntries _ entries grep) as [additions grep2] eqn:Hrest.
    injection Hscan as <- <-. destruct (IHentries _ _ eq_refl) as [-> Hadditions].
    split; [reflexivity|].
    cbn [flat_map]. rewrite List.filter_app, map_app, <- Haddition, <- Hadditions.
    by destruct addition as [[created|test]|].
Qed.

(** X15: a test declaration outside the set is passed over before the
    pattern is tried: when no test declared under the suite is in the set,
    [createSuiteRun] returns the suites without any test and leaves [grep],
    [lastIndex] included, as it was. *)
Theorem unselected_tests_leave_grep_alone tests path suite grep :
  Forall (fun entry => DeclaredTest.ref (snd entry) ∉ tests) (declared path suite) ->
  create tests path suite grep = (bareSuite suite, grep).
Proof.
  revert path grep.
  induction suite as [title location file ordinal only skipped entries IH]
    using declared_suite_induction.
  intros path grep Hout. rewrite createSuiteRun_unfold. cbn [declaredTests] in Hout.
  assert (scanEntries (entryBody regexpExec fullTitle tests (path ++ [title])) entries grep
          = (omap (fun entry =>
                     match entry with
                     | inl child => Some (inl (bareSuite child))
                     | inr _ => None
                     end) entries, grep)) as ->; [|reflexivity].
  revert grep.
  induction IH as [|entry entries Hentry _ IHentries]; intros grep; [reflexivity|].
  cbn [flat_map] in Hout. apply Forall_app in Hout as [Hhere Hrest].
  rewrite scanEntries_cons. destruct entry as [child|test]; cbn [entryBody].
  - rewrite (Hentry _ grep Hhere), (IHentries Hrest). reflexivity.
  - apply Forall_cons in Hhere as [Hhere _]. cbn [snd] in Hhere.
    destruct (createTestEntry_cases tests (path ++ [title]) test grep)
      as [[_ ->]|[Hin _]]; [|done].
    rewrite (IHentries Hrest). reflexivity.
Qed.

End ExecutionTree.

(** ** The grep pattern, on every input *)

Section GrepInFull.

(** X16: lines 27-28 on every input.  An input of the form [/body/flag],
    the body free of line terminators and the flag [g], [i] or none, gives
    the body as pattern, or the whole input when the body is empty, and the
    flag; any other input gives, without a flag, what comes before its first
    line terminator, the whole input when it has none. *)
Theorem grep_arguments_in_full input :
  (forall body flag,
     noLineTerminator body ->
     input = "/" +:+ body +:+ "/" +:+ flagText flag ->
     grepArguments input = (if String.eqb body "" then input else body, Some flag)) /\
  ((forall body flag,
      noLineTerminator body -> input <> "/" +:+ body +:+ "/" +:+ flagText flag) ->
   exists prefix rest,
     input = prefix +:+ rest /\
     noLineTerminator prefix /\
     (rest = "" \/ startsLineTerminator (list_ascii_of_string rest) = true) /\
     grepArguments input = (prefix, None)).
Proof.
  split.
  - intros body flag Hline ->. by apply grepArguments_delimited_any.
  - intros Hnot.
    destruct (dotStar_prefix (list_ascii_of_string input))
      as (rest & Hinput & Hprefix & Hrest).
    exists (string_of_list_ascii (dotStar (list_ascii_of_string input))),
           (string_of_list_ascii rest).
    split; [|split; [|split]].
    + apply list_ascii_of_string_inj.
      by rewrite list_ascii_of_append, !list_ascii_of_string_of_list_ascii.
    + unfold noLineTerminator. by rewrite list_ascii_of_string_of_list_ascii.
    + destruct Hrest as [->|Hrest]; [by left|].
      right. by rewrite list_ascii_of_string_of_list_ascii.
    + by apply grepArguments_not_delimited.
Qed.

End GrepInFull.

(** ** The further properties at work *)

(** The premises of X1 hold of the fourth run of a test on [browser] repeated
    twice. *)
Lemma runs_are_pushed_in_order_witness :
  materializeRuns Demo.renderValue "h"
    (generatorConfigurations (matrix Demo.fixturesEnv) ["browser"]) 2 !! (1 * 2 + 1)
  = Some (newTestRun Demo.renderValue "h" [("browser", "firefox")] 1).
Proof.
  apply (runs_are_pushed_in_order Demo.renderValue "h"
           (generatorConfigurations (matrix Demo.fixturesEnv) ["browser"])
           2 1 [("browser", "firefox")] 1); [reflexivity|lia].
Defined.

(** The premise of X2 holds of the fixtures [browser] and [page]. *)
Lemma configurations_are_the_combinations_witness :
  generatorConfigurations (matrix Demo.fixturesEnv) ["browser"; "page"]
  = combinations (matrix Demo.fixturesEnv) ["browser"; "page"].
Proof.
  apply (configurations_are_the_combinations (matrix Demo.fixturesEnv)
           ["browser"; "page"]).
  evaluated.
Defined.

(** The premises of X7 hold of locations [ab], [c] and locations [a], [bc]. *)
Lemma worker_hash_of_joined_locations_witness :
  computeWorkerRegistrationHash Demo.digest Demo.splitRegistrations ["first"; "second"]
  = computeWorkerRegistrationHash Demo.digest Demo.splitRegistrations ["third"; "fourth"].
Proof.
  apply (worker_hash_of_joined_locations Demo.digest Demo.splitRegistrations
           Demo.splitRegistrations ["first"; "second"] ["third"; "fourth"]);
    [evaluated|evaluated|reflexivity].
Defined.

(** The premise of X8 holds of a pass over a suite with a run in a list. *)
Lemma run_lists_only_grow_witness :
  Forall (fun test' =>
            exists test,
              test ∈ allTests (rootSuite [Demo.fooSuiteWithRuns]) /\
              test_title test' = test_title test /\
              fn test' = fn test /\
              test_only test' = test_only test /\
              exists pushed, runs test' = runs test ++ pushed)
         (allTests (snd (filterOnly (rootSuite
            [Suite "A" "a.spec.ts" false []
               [{| test_title := "foo 1"; fn := []; test_only := false;
                   runs := [bareRun Demo.digest 7; bareRun Demo.digest 0] |};
                Demo.test "foo 2" [] false]])))).
Proof.
  apply (run_lists_only_grow Demo.renderValue Demo.digest Demo.regexpSyntax
           Demo.regexpExec Demo.rerunRegistrations Demo.fullTitle
           [Demo.fooSuiteWithRuns] Demo.grepFooGlobal).
  vm_compute. reflexivity.
Defined.

(** The premises of X9 hold of the walk over two tests under [/foo/]. *)
Lemma tests_are_accepted_by_their_own_title_witness :
  Some Demo.fooPlain = Some Demo.fooPlain /\
  Forall2 (fun '(title, test) test' =>
             patternAdmits Demo.regexpExec (Some Demo.fooPlain) title /\
             generateRuns Demo.renderValue Demo.digest Demo.fixturesEnv
               (Demo.repeated 1) test = Returned test' \/
             ~ patternAdmits Demo.regexpExec (Some Demo.fooPlain) title /\ test' = test)
          (titledTests Demo.fullTitle [] Demo.fooSuite) (allTests Demo.fooPlainResult).
Proof.
  apply (tests_are_accepted_by_their_own_title Demo.renderValue Demo.digest
           Demo.regexpExec Demo.fullTitle Demo.fixturesEnv (Demo.repeated 1) []
           Demo.fooSuite (Some Demo.fooPlain) Demo.fooPlainResult (Some Demo.fooPlain));
    [reflexivity|vm_compute; reflexivity].
Defined.

(** The premises of X11 hold of a pass with [repeatEach] 0. *)
Lemma no_repetition_no_run_witness :
  rootSuite [Demo.fooSuiteWithRuns]
  = snd (filterOnly (rootSuite [Demo.fooSuiteWithRuns])).
Proof.
  apply (no_repetition_no_run Demo.renderValue Demo.digest Demo.regexpSyntax
           Demo.regexpExec Demo.rerunRegistrations Demo.fullTitle
           [Demo.fooSuiteWithRuns] (Demo.repeated 0));
    [reflexivity|vm_compute; reflexivity].
Defined.

(** The premise of X14 holds of [/foo/] and a set of two tests. *)
Lemma created_tests_without_global_flag_witness :
  snd (Demo.createRun {[2; 3]} [] Demo.declaredTree (Some Demo.fooPlain))
  = Some Demo.fooPlain /\
  createdTests (fst (Demo.createRun {[2; 3]} [] Demo.declaredTree (Some Demo.fooPlain)))
  = map (fun entry => createTestRun (snd entry))
        (List.filter (selected Demo.regexpExec {[2; 3]} (Some Demo.fooPlain))
           (declaredTests Demo.fullTitle [] Demo.declaredTree)).
Proof.
  apply (created_tests_without_global_flag Demo.regexpExec Demo.fullTitle
           {[2; 3]} [] Demo.declaredTree (Some Demo.fooPlain)).
  reflexivity.
Defined.

(** The premise of X15 holds of a set that holds no declared test. *)
Lemma unselected_tests_leave_grep_alone_witness :
  Demo.createRun {[7]} [] Demo.declaredTree (Some Demo.fooAfterMatch)
  = (bareSuite Demo.declaredTree, Some Demo.fooAfterMatch).
Proof.
  apply (unselected_tests_leave_grep_alone Demo.regexpExec Demo.fullTitle
           {[7]} [] Demo.declaredTree (Some Demo.fooAfterMatch)).
  repeat constructor; cbn; set_solver.
Defined.

(** The premises of X16 hold of [//g] and of an input with a line feed. *)
Lemma grep_arguments_in_full_witness :
  grepArguments "//g" = ("//g", Some FlagG) /\
  exists prefix rest,
    String "a" (String "010" "b") = prefix +:+ rest /\
    noLineTerminator prefix /\
    (rest = "" \/ startsLineTerminator (list_ascii_of_string rest) = true) /\
    grepArguments (String "a" (String "010" "b")) = (prefix, None).
Proof.
  split.
  - apply (proj1 (grep_arguments_in_full "//g") "" FlagG); reflexivity.
  - apply (proj2 (grep_arguments_in_full (String "a" (String "010" "b")))).
    intros body flag _ Hinput. discriminate Hinput.
Defined.

(** The second alternative stops at each of the four line terminators: at a
    line feed, at a carriage return, and at the three bytes of a line
    separator (U+2028) and of a paragraph separator (U+2029); bytes that
    only begin like a separator are matched. *)
Example grep_stops_at_line_terminators :
  grepArguments (String "a" (String "010" "b")) = ("a", None) /\
  grepArguments (String "a" (String "013" "b")) = ("a", None) /\
  grepArguments (String "a" (String "226" (String "128" (String "168" "b"))))
  = ("a", None) /\
  grepArguments (String "a" (String "226" (String "128" (String "169" "b"))))
  = ("a", None) /\
  grepArguments (String "/" (String "226" (String "128" (String "168" "/"))))
  = ("/", None) /\
  grepArguments (String "a" (String "226" (String "128" (String "148" "b"))))
  = (String "a" (String "226" (String "128" (String "148" "b"))), None).
Proof. repeat split; vm_compute; reflexivity. Qed.
